(** * Knowledge-graph demo (app.py): graph builder and query matcher

    A shallow embedding of the callbacks of [app.py] that carry logic:
    [_norm], [go_to_sentinel], [start_flow] and [update_elements],
    together with the module-level tables they read and write.

    Conventions.
    - Free text typed by the user is a Python [str]: a sequence of Unicode
      code points, modelled as [list N].  Identifiers, category tokens and
      colours are only ever compared for equality, so they are Rocq
      [string]s.
    - Python floats are IEEE 754 binary64 numbers: Rocq's primitive
      [float]s, whose product is the product of Python, and whose literals
      denote the nearest binary64 number as the literals of Python do.
    - The module-level lists of dicts are one record, [catalog], that is
      passed into and returned from [update_elements]: the callback writes
      into those dicts. *)

From Stdlib Require Import PrimFloat.
From Stdlib Require SpecFloat FloatOps.
From Stdlib Require Import ZArith NArith QArith Qround Lia Lqa Bool List String Ascii.
From stdpp Require Import gmap strings list.
Import ListNotations.

Set Warnings "-inexact-float".

Local Open Scope string_scope.
Local Open Scope list_scope.

(** ** Python [str] values *)

Module Text.

Definition str : Type := list N.

(** A string literal of the source, as code points. *)
Definition lit (s : string) : str :=
  List.map N_of_ascii (list_ascii_of_string s).

(** Truth value of a [str] or [None]: [None] and the empty string are
    falsy. *)
Definition truthy (s : option str) : bool :=
  match s with Some (_ :: _) => true | _ => false end.

(** [s or ""] where [s] may be [None]. *)
Definition or_empty (s : option str) : str :=
  match s with
  | Some (c :: t) => c :: t
  | _ => []
  end.

Fixpoint startswith (t p : str) {struct p} : bool :=
  match p, t with
  | [], _ => true
  | _ :: _, [] => false
  | a :: p', b :: t' => N.eqb a b && startswith t' p'
  end.

(** [sub in t]: [sub] occurs in [t] as a contiguous substring. *)
Fixpoint contains (sub t : str) : bool :=
  startswith t sub ||
  match t with
  | [] => false
  | _ :: t' => contains sub t'
  end.

Definition eqb (a b : str) : bool := bool_decide (a = b).

Section Lower.

(** [str.lower()] follows the Unicode character database, which is not part
    of the program.  Its action on ASCII is fixed below; its action on the
    other code points is the parameter [unicode_lower] (one code point may
    lower-case to several, and to ASCII ones: U+212A gives [k]). *)
Variable unicode_lower : N -> list N.

Definition lower_cp (c : N) : list N :=
  if (65 <=? c)%N && (c <=? 90)%N then [(c + 32)%N]
  else if (c <? 128)%N then [c]
  else unicode_lower c.

Definition lower (s : str) : str := flat_map lower_cp s.

End Lower.

(** The character class [[a-z0-9]]. *)
Definition is_az09 (c : N) : bool :=
  ((97 <=? c)%N && (c <=? 122)%N) || ((48 <=? c)%N && (c <=? 57)%N).

(** [re.sub(r"[^a-z0-9]+", repl, t)]: every maximal run of characters
    outside the class is replaced by one copy of [repl].  [in_run] records
    that the previous character already belonged to the run being
    replaced. *)
Fixpoint re_sub (repl : str) (in_run : bool) (t : str) : str :=
  match t with
  | [] => []
  | c :: t' =>
      if is_az09 c then c :: re_sub repl false t'
      else (if in_run then [] else repl) ++ re_sub repl true t'
  end.

(** The canonical form in the words of the specification, one character
    at a time: an ASCII letter or digit is kept, lower-cased; any other
    ASCII character is dropped; a character outside ASCII leaves what its
    lower-case form has in [[a-z0-9]]. *)
Definition is_ascii_alnum (c : N) : bool :=
  ((65 <=? c)%N && (c <=? 90)%N) || is_az09 c.

Definition ascii_lower (c : N) : N :=
  if (65 <=? c)%N && (c <=? 90)%N then (c + 32)%N else c.

Definition canonical_cp (unicode_lower : N -> list N) (c : N) : list N :=
  if is_ascii_alnum c then [ascii_lower c]
  else if (c <? 128)%N then []
  else List.filter is_az09 (unicode_lower c).

Definition canonical (unicode_lower : N -> list N) (s : str) : str :=
  flat_map (canonical_cp unicode_lower) s.

(** [t] has [sub] as a contiguous substring. *)
Definition occurs (sub t : str) : Prop :=
  exists pre post, t = pre ++ sub ++ post.

End Text.

Import Text.

(** ** QueryMatcher: [_norm], [go_to_sentinel], [start_flow] *)

Module QueryMatcher.

Definition SENTINEL_REDIRECT : string := "https://app.causify.ai/sentinel".

(** What a callback does: return a value, or leave through an exception.
    [PreventUpdate] is Dash's way of saying that nothing changes. *)
Inductive outcome (A : Type) : Type :=
| Return (a : A)
| PreventUpdate
| IndexError.
Arguments Return {A} a.
Arguments PreventUpdate {A}.
Arguments IndexError {A}.

(** The value of the ["index"] entry of a dict id, as [json.loads] gives
    it: an integer, a boolean (which Python counts among the integers,
    [False] as 0 and [True] as 1), or anything else, a missing entry
    included. *)
Inductive json : Type :=
| JInt (z : Z)
| JBool (b : bool)
| JOther.

(** The component that fired, [ctx.triggered[0]["prop_id"].split(".")[0]]:
    the submit button ("qa-submit"); a component with a dict id, given by
    the text of the id as it stands in the property string and by the
    ["index"] entry that [json.loads] reads from that text; or a component
    with any other plain id. *)
Inductive trigger : Type :=
| qa_submit
| dict_id (text : string) (index : json)
| other_component.

(** The double quote, and the prefix ['{"type":"qchip"'] that the chip
    branch asks of the id text. *)
Definition dq : string := String "034"%char EmptyString.

Definition qchip_prefix : string :=
  "{" ++ dq ++ "type" ++ dq ++ ":" ++ dq ++ "qchip" ++ dq.

(** The text Dash writes for the dict id [{"type": "qchip", "index": i}] of
    a suggestion chip: keys in sorted order, no blanks.  [index_text] is
    the numeral of [i]. *)
Definition dash_qchip_id (index_text : string) : string :=
  "{" ++ dq ++ "index" ++ dq ++ ":" ++ index_text ++ ","
      ++ dq ++ "type" ++ dq ++ ":" ++ dq ++ "qchip" ++ dq ++ "}".

Section Matcher.

Variable unicode_lower : N -> list N.

Definition _norm (s : option str) : str :=
  re_sub [] false (lower unicode_lower (or_empty s)).

Definition SUPPORTED_NORM : str :=
  _norm (Some (lit "Predict the main bearing failures in the next 2 months?")).

(** The decision taken on submitted free text (the [qa-submit] branch of
    [go_to_sentinel]). *)
Definition matches_supported_query (free_text : option str) : bool :=
  let qn := _norm free_text in
  if Text.eqb qn SUPPORTED_NORM then true
  else if contains (lit "predict") qn
          && (contains (lit "mainbearing") qn || contains (lit "mb") qn)
          && (contains (lit "next2months") qn
              || contains (lit "nexttwomonths") qn
              || contains (lit "next60days") qn)
  then true
  else false.

(** [l[i]] with Python's negative indices. *)
Definition py_index (l : list Z) (i : Z) : option Z :=
  if (0 <=? i)%Z then l !! Z.to_nat i
  else if (- Z.of_nat (length l) <=? i)%Z then l !! Z.to_nat (Z.of_nat (length l) + i)
  else None.

(** [isinstance(idx, int)], with the integer that [idx] then is. *)
Definition as_int (idx : json) : option Z :=
  match idx with
  | JInt z => Some z
  | JBool b => Some (if b then 1%Z else 0%Z)
  | JOther => None
  end.

(** The decision taken once the chip branch is entered (the body of the
    [qchip] branch of [go_to_sentinel]); [chip_clicks] holds the click count
    of every chip. *)
Definition resolve_chip_selection (idx : json) (chip_clicks : option (list Z))
  : outcome string :=
  match as_int idx with
  | None => PreventUpdate
  | Some idx =>
      match chip_clicks with
      | None | Some [] => PreventUpdate
      | Some clicks =>
          if (Z.of_nat (length clicks) <=? idx)%Z then PreventUpdate
          else match py_index clicks idx with
               | None => IndexError
               | Some n =>
                   if (n <=? 0)%Z then PreventUpdate
                   else if (idx =? 0)%Z then Return SENTINEL_REDIRECT
                   else PreventUpdate
               end
      end
  end.

Definition go_to_sentinel (triggered : option trigger) (ask_clicks : option Z)
    (chip_clicks : option (list Z)) (free_text : option str) : outcome string :=
  match triggered with
  | None => PreventUpdate
  | Some qa_submit =>
      match ask_clicks with
      | None | Some 0%Z => PreventUpdate
      | Some _ =>
          if matches_supported_query free_text then Return SENTINEL_REDIRECT
          else PreventUpdate
      end
  | Some (dict_id text idx) =>
      if String.prefix qchip_prefix text
      then resolve_chip_selection idx chip_clicks
      else PreventUpdate
  | Some other_component => PreventUpdate
  end.

(** *** Scenario selection *)

Inductive stage : Type := select | loading | kg.

(** One output slot of a callback: a new value or [dash.no_update]. *)
Inductive update (A : Type) : Type :=
| set_to (a : A)
| no_update.
Arguments set_to {A} a.
Arguments no_update {A}.

(** Content of a display slot: a plain string, or a [html.Div] of
    [html.Span]s given by their texts. *)
Inductive children : Type :=
| text (s : string)
| Div (spans : list string).

Definition unsupported_scenario : children :=
  Div ["⚠️ ";
       "Wind turbines scenario is currently available. Other scenarios coming soon!"].

Definition empty_selection : children :=
  Div ["ℹ️ "; "Please select a scenario to continue"].

Inductive button : Type := go | settings | other_button.

Definition start_flow (triggered : option button) (search_value : option str)
  : update stage * update children * update children :=
  match triggered with
  | Some settings => (set_to select, set_to (text ""), set_to (text ""))
  | Some go =>
      if truthy search_value
         && contains (lit "wind") (lower unicode_lower (or_empty search_value))
      then (set_to loading,
            set_to (text "Initializing turbine sensors A0–A71..."),
            set_to (text ""))
      else if truthy search_value
      then (no_update, no_update, set_to unsupported_scenario)
      else (no_update, no_update, set_to empty_selection)
  | _ => (no_update, no_update, no_update)
  end.

(** The three stores the outputs of [start_flow] are written to. *)
Record screen : Type := {
  stage_data : stage;
  loader_status : children;
  error_display : children;
}.

Definition write {A : Type} (u : update A) (old : A) : A :=
  match u with set_to a => a | no_update => old end.

Definition after_start_flow (triggered : option button)
    (search_value : option str) (s : screen) : screen :=
  let '(st, ld, er) := start_flow triggered search_value in
  {| stage_data := write st (stage_data s);
     loader_status := write ld (loader_status s);
     error_display := write er (error_display s) |}.

End Matcher.

End QueryMatcher.

(** The phrase of suggestion 0, and the same phrase with the misspelling
    named in the comment of [_norm]. *)
Definition reference_phrase : str :=
  lit "Predict the main bearing failures in the next 2 months?".

Definition misspelt_phrase : str :=
  lit "predict the main beraing failures in the next 2 months?".

(** The page as first served: the selection stage, nothing displayed. *)
Definition fresh_screen : QueryMatcher.screen :=
  {| QueryMatcher.stage_data := QueryMatcher.select;
     QueryMatcher.loader_status := QueryMatcher.text "";
     QueryMatcher.error_display := QueryMatcher.text "" |}.

(** ** GraphBuilder: the catalog and [update_elements] *)

Module GraphBuilder.

Local Open Scope Q_scope.

(** A feature dict.  The literals carry ["id"], ["label"] and ["classes"];
    [update_elements] adds ["bgcolor"] and ["bordercolor"]. *)
Record node : Type := {
  id : string;
  label : string;
  classes : string;
  bgcolor : option string;
  bordercolor : option string;
}.

Definition feature (i l c : string) : node :=
  {| id := i; label := l; classes := c; bgcolor := None; bordercolor := None |}.

(** The ["data"] dict of an edge element. *)
Record edge : Type := {
  source : string;
  target : string;
  weight : option float;
}.

Definition link (src tgt : string) (w : float) : edge :=
  {| source := src; target := tgt; weight := Some w |}.

(** The module-level tables.  They are created once when the module is
    loaded and live as long as the process; every callback invocation sees
    the dicts the previous one left behind. *)
Record catalog : Type := {
  RAW_FEATURES : list node;
  PHYSICS_FEATURES : list node;
  STATISTICAL_FEATURES : list node;
  ANOMALY_FEATURES : list node;
  OUTCOMES : list node;
  BASE_EDGES : list edge;
}.

(** The tables as the literals of the module define them. *)
Definition startup : catalog := {|
  RAW_FEATURES := [
      feature "active_power" "Active Power" "raw";
      feature "main_bearing_temperature" "Main Bearing Temp" "raw";
      feature "rotor_speed" "Rotor Speed" "raw";
      feature "temperature_reading" "Ambient Temp" "raw";
      feature "anemometer_reading" "Wind Speed" "raw"
    ];
  PHYSICS_FEATURES := [
      feature "power_efficiency" "Power Efficiency" "physics";
      feature "rotor_response" "Rotor Response" "physics";
      feature "temperature_anomaly" "Temp Anomaly" "physics";
      feature "main_bearing_consecutive_high" "MBT Consecutive High" "physics";
      feature "mbt_low_10d" "MBT Low 10d" "physics";
      feature "rotor_low_count_10d" "Rotor Low 10d" "physics";
      feature "rotor_low_count_20d" "Rotor Low 20d" "physics";
      feature "rotor_zero" "Rotor Zero Events" "physics";
      feature "rotor_and_mbt_low_10d" "Rotor & MBT Low" "physics"
    ];
  STATISTICAL_FEATURES := [
      feature "active_power_moment" "Power Moment" "statistical";
      feature "main_bearing_temperature_moment" "MBT Moment" "statistical";
      feature "rotor_speed_moment" "Rotor Moment" "statistical";
      feature "active_power_z_score" "Power Z-Score" "statistical";
      feature "main_bearing_temperature_z_score" "MBT Z-Score" "statistical";
      feature "rotor_speed_z_score" "Rotor Z-Score" "statistical";
      feature "active_power_volatility_10d" "Power Volatility" "statistical";
      feature "main_bearing_temperature_volatility_10d" "MBT Volatility" "statistical";
      feature "rotor_speed_volatility_10d" "Rotor Volatility" "statistical";
      feature "active_power_deriv" "Power Derivative" "statistical";
      feature "main_bearing_temperature_deriv" "MBT Derivative" "statistical";
      feature "rotor_speed_deriv" "Rotor Derivative" "statistical"
    ];
  ANOMALY_FEATURES := [
      feature "main_bearing_below_ambient_flag" "MBT Below Ambient" "anomaly";
      feature "volatility_flag" "High Volatility Flag" "anomaly";
      feature "is_constant" "Constant Reading" "anomaly"
    ];
  OUTCOMES := [
      feature "is_approaching_outage" "Approaching Outage" "outcome";
      feature "is_within_outage" "Within Outage" "outcome";
      feature "failure_risk" "Failure Risk" "outcome";
      feature "maintenance_required" "Maintenance Required" "outcome"
    ];
  BASE_EDGES := [
      link "active_power" "power_efficiency" 0.9%float;
      link "anemometer_reading" "power_efficiency" 0.9%float;
      link "rotor_speed" "rotor_response" 0.9%float;
      link "anemometer_reading" "rotor_response" 0.8%float;
      link "main_bearing_temperature" "temperature_anomaly" 0.9%float;
      link "temperature_reading" "temperature_anomaly" 0.8%float;
      link "main_bearing_temperature" "main_bearing_consecutive_high" 0.9%float;
      link "main_bearing_temperature" "mbt_low_10d" 0.8%float;
      link "rotor_speed" "rotor_low_count_10d" 0.9%float;
      link "rotor_speed" "rotor_low_count_20d" 0.9%float;
      link "rotor_speed" "rotor_zero" 0.9%float;
      link "rotor_speed" "rotor_and_mbt_low_10d" 0.7%float;
      link "main_bearing_temperature" "rotor_and_mbt_low_10d" 0.7%float;
      link "active_power" "active_power_moment" 0.9%float;
      link "active_power" "active_power_z_score" 0.8%float;
      link "active_power" "active_power_volatility_10d" 0.8%float;
      link "active_power" "active_power_deriv" 0.9%float;
      link "main_bearing_temperature" "main_bearing_temperature_moment" 0.9%float;
      link "main_bearing_temperature" "main_bearing_temperature_z_score" 0.8%float;
      link "main_bearing_temperature" "main_bearing_temperature_volatility_10d" 0.8%float;
      link "main_bearing_temperature" "main_bearing_temperature_deriv" 0.9%float;
      link "rotor_speed" "rotor_speed_moment" 0.9%float;
      link "rotor_speed" "rotor_speed_z_score" 0.8%float;
      link "rotor_speed" "rotor_speed_volatility_10d" 0.8%float;
      link "rotor_speed" "rotor_speed_deriv" 0.9%float;
      link "temperature_anomaly" "main_bearing_below_ambient_flag" 0.8%float;
      link "rotor_zero" "is_constant" 0.7%float;
      link "active_power_volatility_10d" "volatility_flag" 0.8%float;
      link "main_bearing_temperature_volatility_10d" "volatility_flag" 0.8%float;
      link "rotor_speed_volatility_10d" "volatility_flag" 0.8%float;
      link "power_efficiency" "failure_risk" 0.8%float;
      link "temperature_anomaly" "failure_risk" 0.9%float;
      link "main_bearing_consecutive_high" "failure_risk" 0.9%float;
      link "main_bearing_temperature_z_score" "failure_risk" 0.8%float;
      link "rotor_speed_z_score" "failure_risk" 0.7%float;
      link "volatility_flag" "failure_risk" 0.7%float;
      link "rotor_zero" "is_within_outage" 0.9%float;
      link "is_constant" "is_within_outage" 0.8%float;
      link "mbt_low_10d" "is_approaching_outage" 0.7%float;
      link "rotor_low_count_10d" "is_approaching_outage" 0.8%float;
      link "rotor_and_mbt_low_10d" "is_approaching_outage" 0.9%float;
      link "main_bearing_below_ambient_flag" "maintenance_required" 0.8%float;
      link "main_bearing_consecutive_high" "maintenance_required" 0.9%float;
      link "active_power_deriv" "is_approaching_outage" 0.6%float;
      link "main_bearing_temperature_deriv" "failure_risk" 0.7%float;
      link "power_efficiency" "rotor_response" 0.6%float;
      link "temperature_anomaly" "main_bearing_consecutive_high" 0.7%float;
      link "active_power_z_score" "volatility_flag" 0.6%float;
      link "rotor_speed_moment" "rotor_low_count_10d" 0.5%float
    ]
|}.

(** A Cytoscape element of the returned list. *)
Inductive element : Type :=
| node_element (data : node) (cls : string)
| edge_element (data : edge).

Definition as_nodes (arr : list node) : list element :=
  List.map (fun n => node_element n (classes n)) arr.

(** [node["bgcolor"] = bg; node["bordercolor"] = bd]. *)
Definition paint (bg bd : string) (n : node) : node :=
  {| id := id n; label := label n; classes := classes n;
     bgcolor := Some bg; bordercolor := Some bd |}.

(** [e["data"].get("weight", 0.5)]. *)
Definition get_weight (e : edge) : float :=
  match weight e with Some w => w | None => 0.5%float end.

Definition set_weight (w : float) (e : edge) : edge :=
  {| source := source e; target := target e; weight := Some w |}.

(** Nearest integer, ties to the even one. *)
Definition round_half_even (q : Q) : Z :=
  let f := Qfloor q in
  match Qcompare (q - inject_Z f) (1 # 2) with
  | Lt => f
  | Gt => (f + 1)%Z
  | Eq => if Z.even f then f else (f + 1)%Z
  end.

(** The number [m * 2^e], exactly. *)
Definition dyadic (m : positive) (e : Z) : Q :=
  match e with
  | Z0 => inject_Z (Zpos m)
  | Zpos p => inject_Z (Zpos m * 2 ^ Zpos p)
  | Zneg p => Qmake (Zpos m) (2 ^ p)
  end.

(** The binary64 number nearest to [n / 1000], ties to even, with the sign
    [s]: what reading the decimal numeral of [n] thousandths gives. *)
Definition of_thousandths (s : bool) (n : Z) : float :=
  match n with
  | Zpos p =>
      FloatOps.SF2Prim
        (SpecFloat.SFdiv FloatOps.prec FloatOps.emax
           (SpecFloat.S754_finite s p 0) (SpecFloat.S754_finite false 1000 0))
  | _ => FloatOps.SF2Prim (SpecFloat.S754_zero s)
  end.

(** [round(x, 3)] on a float: the exact value of [x] is rounded to a whole
    number of thousandths, ties to even, and the decimal numeral obtained
    is read back as a float; zeros, infinities and NaN come back as they
    are. *)
Definition round3 (x : float) : float :=
  match FloatOps.Prim2SF x with
  | SpecFloat.S754_finite s m e =>
      of_thousandths s (round_half_even (dyadic m e * inject_Z 1000))
  | _ => x
  end.

(** The condition of the list comprehension over [BASE_EDGES]. *)
Definition kept (present : gset string) (e : edge) : bool :=
  bool_decide (source e ∈ present) && bool_decide (target e ∈ present).

(** The loop over the kept edges.  [edges] holds the very dicts of
    [BASE_EDGES], so assigning the weight writes the table: the result is
    [BASE_EDGES] after the loop.  [uniform k] is the value of the [k]-th
    call of [random.uniform(0.9, 1.1)]; edges that are not kept draw
    nothing. *)
Fixpoint vary (uniform : nat -> float) (present : gset string) (k : nat)
    (es : list edge) : list edge :=
  match es with
  | [] => []
  | e :: es' =>
      if kept present e
      then set_weight (round3 (PrimFloat.mul (get_weight e) (uniform k))) e
             :: vary uniform present (S k) es'
      else e :: vary uniform present k es'
  end.

(** [update_elements(layers)], with the tables it reads and writes made
    explicit.  [nodes] is built from references to the feature dicts, so
    the elements returned at the end show the colours written meanwhile;
    likewise the returned edges are the dicts of [BASE_EDGES] after the
    weight loop. *)
Definition update_elements (uniform : nat -> float) (layers : option (list string))
    (g : catalog) : list element * catalog :=
  let layers : gset string :=
    list_to_set (match layers with Some l => l | None => [] end) in
  let raw := List.map (paint "#3b82f6" "#2563eb") (RAW_FEATURES g) in
  let outcomes := List.map (paint "#f59e0b" "#d97706") (OUTCOMES g) in
  let nodes := raw ++ outcomes in
  let physics :=
    if bool_decide ("physics" ∈ layers)
    then List.map (paint "#10b981" "#059669") (PHYSICS_FEATURES g)
    else PHYSICS_FEATURES g in
  let nodes :=
    if bool_decide ("physics" ∈ layers) then nodes ++ physics else nodes in
  let statistical :=
    if bool_decide ("statistical" ∈ layers)
    then List.map (paint "#8b5cf6" "#7c3aed") (STATISTICAL_FEATURES g)
    else STATISTICAL_FEATURES g in
  let nodes :=
    if bool_decide ("statistical" ∈ layers) then nodes ++ statistical else nodes in
  let anomaly :=
    if bool_decide ("anomaly" ∈ layers)
    then List.map (paint "#ef4444" "#dc2626") (ANOMALY_FEATURES g)
    else ANOMALY_FEATURES g in
  let nodes :=
    if bool_decide ("anomaly" ∈ layers) then nodes ++ anomaly else nodes in
  let present : gset string := list_to_set (List.map id nodes) in
  let base_edges := vary uniform present 0 (BASE_EDGES g) in
  let edges := List.filter (kept present) base_edges in
  (as_nodes nodes ++ List.map edge_element edges,
   {| RAW_FEATURES := raw;
      PHYSICS_FEATURES := physics;
      STATISTICAL_FEATURES := statistical;
      ANOMALY_FEATURES := anomaly;
      OUTCOMES := outcomes;
      BASE_EDGES := base_edges |}).

(** *** Reading the returned element list *)

Definition node_of (el : element) : option node :=
  match el with node_element n _ => Some n | edge_element _ => None end.

Definition edge_of (el : element) : option edge :=
  match el with edge_element e => Some e | node_element _ _ => None end.

Definition out_nodes (els : list element) : list node := omap node_of els.
Definition out_edges (els : list element) : list edge := omap edge_of els.

(** All feature dicts of the catalog. *)
Definition all_nodes (g : catalog) : list node :=
  RAW_FEATURES g ++ PHYSICS_FEATURES g ++ STATISTICAL_FEATURES g
    ++ ANOMALY_FEATURES g ++ OUTCOMES g.

(** *** Vocabulary of the specification *)

(** The toggles as given, with [None] read as no toggle. *)
Definition toggles (layers : option (list string)) : list string :=
  match layers with Some l => l | None => [] end.

(** Whether a category token is among the toggles. *)
Definition enabled (layers : option (list string)) (c : string) : bool :=
  bool_decide (c ∈ (list_to_set (toggles layers) : gset string)).

(** The feature dicts that are shown, as they were before the call. *)
Definition shown (layers : option (list string)) (g : catalog) : list node :=
  RAW_FEATURES g ++ OUTCOMES g
    ++ (if enabled layers "physics" then PHYSICS_FEATURES g else [])
    ++ (if enabled layers "statistical" then STATISTICAL_FEATURES g else [])
    ++ (if enabled layers "anomaly" then ANOMALY_FEATURES g else []).

(** The set [present] of the callback. *)
Definition present (layers : option (list string)) (g : catalog) : gset string :=
  list_to_set (List.map id (shown layers g)).

(** The three optional categories. *)
Definition optional (c : string) : bool :=
  String.eqb c "physics" || String.eqb c "statistical" || String.eqb c "anomaly".

(** The colour table of the specification: fill and border per category. *)
Definition style (category : string) : string * string :=
  if String.eqb category "raw" then ("#3b82f6", "#2563eb")
  else if String.eqb category "physics" then ("#10b981", "#059669")
  else if String.eqb category "statistical" then ("#8b5cf6", "#7c3aed")
  else if String.eqb category "anomaly" then ("#ef4444", "#dc2626")
  else ("#f59e0b", "#d97706").

Definition styled (n : node) : node :=
  paint (fst (style (classes n))) (snd (style (classes n))) n.

(** The two colour entries of a feature dict hold [bg] and [bd]. *)
Definition coloured (bg bd : string) (n : node) : Prop :=
  bgcolor n = Some bg /\ bordercolor n = Some bd.

(** What of a feature dict is fixed by the literals. *)
Definition key (n : node) : string * string * string :=
  (id n, label n, classes n).

Definition endpoints (e : edge) : string * string := (source e, target e).

(** Every table holds features of its own category, and no id occurs
    twice. *)
Definition well_formed (g : catalog) : Prop :=
  List.Forall (fun n => classes n = "raw") (RAW_FEATURES g) /\
  List.Forall (fun n => classes n = "physics") (PHYSICS_FEATURES g) /\
  List.Forall (fun n => classes n = "statistical") (STATISTICAL_FEATURES g) /\
  List.Forall (fun n => classes n = "anomaly") (ANOMALY_FEATURES g) /\
  List.Forall (fun n => classes n = "outcome") (OUTCOMES g) /\
  List.NoDup (List.map id (all_nodes g)).

(** The weight the literals give to the edge from [src] to [tgt]. *)
Definition base_weight (src tgt : string) : option float :=
  match List.find (fun e => String.eqb (source e) src && String.eqb (target e) tgt)
          (BASE_EDGES startup) with
  | Some e => weight e
  | None => None
  end.

(** Successive invocations of the callback in one process: each one starts
    from the tables the previous one left. *)
Fixpoint run (calls : list ((nat -> float) * option (list string))) (g : catalog)
  : list (list element) * catalog :=
  match calls with
  | [] => ([], g)
  | (uniform, layers) :: calls' =>
      let '(els, g') := update_elements uniform layers g in
      let '(rest, g'') := run calls' g' in
      (els :: rest, g'')
  end.

End GraphBuilder.

(** The three keyword tests of the second condition of the decision on
    free text, on a canonical form. *)
Definition keywords (qn : str) : Prop :=
  occurs (lit "predict") qn /\
  (occurs (lit "mainbearing") qn \/ occurs (lit "mb") qn) /\
  (occurs (lit "next2months") qn \/ occurs (lit "nexttwomonths") qn
   \/ occurs (lit "next60days") qn).


(** ** The remaining callbacks: chips, stages, rotation *)

Module Pages.

Import QueryMatcher.

Arguments set_to {A} a.
Arguments no_update {A}.

(** [l[i]] for a Python list, negative indices counting from the end;
    [None] stands for [IndexError]. *)
Definition getitem {A : Type} (l : list A) (i : Z) : option A :=
  if (0 <=? i)%Z then l !! Z.to_nat i
  else if (- Z.of_nat (length l) <=? i)%Z
       then l !! Z.to_nat (Z.of_nat (length l) + i)
       else None.

(** *** Scenario chips *)

Definition SCENARIOS : gmap string str :=
  list_to_map [
    ("wind", lit "Wind turbines (Sentinel)");
    ("grid", lit "Data center supply-demand (Grid)");
    ("inv", lit "Inventory management (Horizon)");
    ("infl", lit "Inflation (Optima)")
  ].

(** The property that fired, [ctx.triggered[0]["prop_id"]], for a component
    with a dict id: the ["type"] and ["index"] entries of the id, and
    whether ".n_clicks" occurs in the property string. *)
Record fired : Type := {
  id_type : string;
  id_index : string;
  has_n_clicks : bool;
}.

(** [update_search_from_chip]; the result goes to the search input, whose
    value may be [None]. *)
Definition update_search_from_chip (triggered : option fired)
    (current_value : option str) : update (option str) :=
  match triggered with
  | None => no_update
  | Some t =>
      if has_n_clicks t then
        if String.eqb (id_type t) "chip" then
          set_to (match SCENARIOS !! id_index t with
                  | Some scenario_text => Some scenario_text
                  | None => current_value
                  end)
        else no_update
      else no_update
  end.

(** *** Stages *)

(** The strings the stage store holds. *)
Definition stage_name (s : stage) : string :=
  match s with
  | select => "select"
  | loading => "loading"
  | kg => "kg"
  end.

(** [auto_transition]; the pause before the return is left out. *)
Definition auto_transition (current_stage : stage) : update stage :=
  match current_stage with
  | loading => set_to kg
  | _ => no_update
  end.

Definition after_auto_transition (s : screen) : screen :=
  {| stage_data := write (auto_transition (stage_data s)) (stage_data s);
     loader_status := loader_status s;
     error_display := error_display s |}.

(** One write to the stage store: by [start_flow], fired by whatever
    button with whatever text, or by [auto_transition]. *)
Inductive stage_step (unicode_lower : N -> list N) : screen -> screen -> Prop :=
| step_start_flow (triggered : option button) (search_value : option str)
    (s : screen) :
    stage_step unicode_lower s
      (after_start_flow unicode_lower triggered search_value s)
| step_auto_transition (s : screen) :
    stage_step unicode_lower s (after_auto_transition s).

(** A style dict. *)
Definition hidden : gmap string string := {[ "display" := "none" ]}.
Definition block : gmap string string := {[ "display" := "block" ]}.

(** [swap_stage]: the styles of the select, loading and graph screens.  The
    argument is whatever the store holds. *)
Definition swap_stage (stage : string)
  : gmap string string * gmap string string * gmap string string :=
  if String.eqb stage "select" then (∅, hidden, hidden)
  else if String.eqb stage "loading" then (hidden, block, hidden)
  else (hidden, hidden, block).

(** A screen is on the page unless its style says [display: none]. *)
Definition displayed (style : gmap string string) : bool :=
  negb (bool_decide (style !! "display" = Some "none")).

(** *** Suggestion chips *)

Definition SUGGESTIONS : gmap Z str :=
  list_to_map [
    (0%Z, lit "Predict the main bearing failures in the next 2 months?");
    (1%Z, lit "Which signals predict rotor issues next 7 days?");
    (2%Z, lit "Top contributors to outage risk right now?");
    (3%Z, lit "How many MB failures in the next 2 months?")
  ].

(** [fill_from_qchip]; [triggered] is the ["index"] entry of the chip that
    fired, an integer for every chip of the layout, [None] when nothing
    fired. *)
Definition fill_from_qchip (triggered : option Z) : update str :=
  match triggered with
  | None => no_update
  | Some i =>
      match SUGGESTIONS !! i with
      | Some s => set_to s
      | None => no_update
      end
  end.

(** *** Rotation of the info cards and of the preview images *)

(** [rotate]: [(n or 0) % 3], with Python's remainder, which has the sign of
    the divisor. *)
Definition rotate (n : option Z) : Z :=
  (match n with Some n => n | None => 0 end) mod 3.

Definition images : list string :=
  ["img/wind1.jpg"; "img/wind2.jpg"; "img/wind3.jpg"].

(** The input that fired the preview callback; the last case stands for
    every other property, the timer among them. *)
Inductive preview_input : Type :=
| next_img_btn
| prev_img_btn
| other_input.

Section Preview.

(** [app.get_asset_url], which belongs to Dash. *)
Variable get_asset_url : string -> string.

Definition new_index (triggered : option preview_input)
    (current_index : option Z) : Z :=
  let current_index := match current_index with Some i => i | None => 0%Z end in
  match triggered with
  | None => current_index
  | Some next_img_btn => (current_index + 1) mod Z.of_nat (length images)
  | Some prev_img_btn => (current_index - 1) mod Z.of_nat (length images)
  | Some other_input => (current_index + 1) mod Z.of_nat (length images)
  end.

Definition rotate_and_navigate_preview (triggered : option preview_input)
    (current_index : option Z) : outcome (Z * string) :=
  let i := new_index triggered current_index in
  match getitem images i with
  | Some path => Return (i, get_asset_url path)
  | None => IndexError
  end.

End Preview.

End Pages.

(** ** Further vocabulary for the catalog *)

Module GraphViews.

Import GraphBuilder.

(** A feature dict carries no colour yet, or the colours of its own
    category. *)
Definition tidy (n : node) : Prop :=
  (bgcolor n = None /\ bordercolor n = None) \/
  coloured (fst (style (classes n))) (snd (style (classes n))) n.

(** Both ends of every edge are ids of features of the catalog. *)
Definition closed (g : catalog) : Prop :=
  List.Forall
    (fun e => In (source e) (List.map id (all_nodes g)) /\
              In (target e) (List.map id (all_nodes g)))
    (BASE_EDGES g).

(** The five feature tables of a catalog. *)
Definition node_tables (g : catalog) : list (list node) :=
  [RAW_FEATURES g; PHYSICS_FEATURES g; STATISTICAL_FEATURES g;
   ANOMALY_FEATURES g; OUTCOMES g].

(** How many of the edges [es] are kept. *)
Definition kept_count (P : gset string) (es : list edge) : nat :=
  length (List.filter (kept P) es).

(** What the weight loop makes of an edge that is the [j]-th kept one. *)
Definition varied (uniform : nat -> float) (P : gset string) (j : nat)
    (e : edge) : edge :=
  if kept P e
  then set_weight (round3 (PrimFloat.mul (get_weight e) (uniform j))) e
  else e.

(** Which ids and which edge ends a catalog has. *)
Definition frame (g : catalog) : list (list string) * list (string * string) :=
  (List.map (List.map id) (node_tables g), List.map endpoints (BASE_EDGES g)).

End GraphViews.
(** ** Facts about the text operations *)

Section TextFacts.

Example lit_mb : lit "mb" = [109%N; 98%N].
Proof. reflexivity. Qed.

Example contains_mb : contains (lit "mb") (lit "predictmbnext60days") = true.
Proof. reflexivity. Qed.

Example re_sub_runs :
  re_sub (lit "-") false (lit "a  b?!c") = lit "a-b-c".
Proof. reflexivity. Qed.

Lemma startswith_spec (p t : str) :
  startswith t p = true <-> exists post, t = p ++ post.
Proof.
  revert t. induction p as [|a p IH]; intros t; simpl.
  - split; [intros _; exists t; reflexivity | reflexivity].
  - destruct t as [|b t].
    + split; [discriminate | intros [post H]; discriminate].
    + rewrite andb_true_iff, N.eqb_eq, IH. split.
      * intros [-> [post ->]]. exists post. reflexivity.
      * intros [post H]. injection H as -> ->. split; [reflexivity | eauto].
Qed.

Lemma contains_spec (sub t : str) :
  contains sub t = true <-> occurs sub t.
Proof.
  unfold occurs. induction t as [|c t IH].
  - simpl. rewrite orb_false_r, startswith_spec. split.
    + intros [post H]. exists [], post. exact H.
    + intros [pre [post H]]. destruct pre; [|discriminate]. eauto.
  - cbn [contains]. rewrite orb_true_iff, IH, startswith_spec. split.
    + intros [[post H] | [pre [post H]]].
      * exists [], post. exact H.
      * exists (c :: pre), post. rewrite H. reflexivity.
    + intros [pre [post H]]. destruct pre as [|c' pre].
      * left. exists post. exact H.
      * right. injection H as -> ->. eauto.
Qed.

Lemma re_sub_filter (in_run : bool) (t : str) :
  re_sub [] in_run t = List.filter is_az09 t.
Proof.
  revert in_run. induction t as [|c t IH]; intros in_run; simpl; [reflexivity|].
  destruct (is_az09 c).
  - rewrite IH. reflexivity.
  - destruct in_run; simpl; apply IH.
Qed.

Lemma filter_az09_all (t : str) :
  List.Forall (fun c => is_az09 c = true) (List.filter is_az09 t).
Proof.
  induction t as [|c t IH]; simpl; [constructor|].
  destruct (is_az09 c) eqn:E; [constructor|]; assumption.
Qed.

Lemma filter_az09_id (t : str) :
  List.Forall (fun c => is_az09 c = true) t -> List.filter is_az09 t = t.
Proof.
  induction 1 as [|c t Hc _ IH]; simpl; [reflexivity|].
  rewrite Hc, IH. reflexivity.
Qed.

Lemma lower_cp_az09 unicode_lower (c : N) :
  is_az09 c = true -> lower_cp unicode_lower c = [c].
Proof.
  unfold is_az09, lower_cp. intros H.
  destruct (N.leb_spec 65 c), (N.leb_spec c 90), (N.ltb_spec c 128); simpl;
    try reflexivity; exfalso;
    destruct (N.leb_spec 97 c), (N.leb_spec c 122),
             (N.leb_spec 48 c), (N.leb_spec c 57); simpl in H;
    try discriminate; lia.
Qed.

Lemma lower_az09_id unicode_lower (t : str) :
  List.Forall (fun c => is_az09 c = true) t -> lower unicode_lower t = t.
Proof.
  induction 1 as [|c t Hc _ IH]; simpl; [reflexivity|].
  rewrite (lower_cp_az09 _ _ Hc). simpl. f_equal. exact IH.
Qed.

Lemma or_empty_Some (s : str) : or_empty (Some s) = s.
Proof. destruct s; reflexivity. Qed.

End TextFacts.

(** ** QueryMatcher: the canonical form *)

Section NormFacts.

Import QueryMatcher.

Variable unicode_lower : N -> list N.

Lemma norm_filter (s : option str) :
  _norm unicode_lower s = List.filter is_az09 (lower unicode_lower (or_empty s)).
Proof. unfold _norm. apply re_sub_filter. Qed.

Lemma norm_az09 (s : option str) :
  List.Forall (fun c => is_az09 c = true) (_norm unicode_lower s).
Proof. rewrite norm_filter. apply filter_az09_all. Qed.

Lemma filter_lower_cp (c : N) :
  List.filter is_az09 (lower_cp unicode_lower c) = canonical_cp unicode_lower c.
Proof.
  unfold lower_cp, canonical_cp, is_ascii_alnum, ascii_lower, is_az09.
  destruct (N.leb_spec 65 c), (N.leb_spec c 90), (N.ltb_spec c 128); simpl;
    try reflexivity; try lia;
    repeat match goal with
           | |- context [N.leb ?a ?b] => destruct (N.leb_spec a b); simpl
           end; try reflexivity; lia.
Qed.

Lemma filter_lower (s : str) :
  List.filter is_az09 (lower unicode_lower s) = canonical unicode_lower s.
Proof.
  unfold lower, canonical. induction s as [|c s IH]; simpl; [reflexivity|].
  rewrite List.filter_app, IH, filter_lower_cp. reflexivity.
Qed.

End NormFacts.

(** C9.  [_norm] of [None] and of the empty string is the empty string;
    for every string, [_norm] is the lower-cased text with everything
    outside [a-z0-9] removed, which is the concatenation, in order, of the
    text's ASCII letters and digits lower-cased (a character outside ASCII
    contributes only what its lower-case form has in [a-z0-9]). *)
Theorem norm_keeps_lowered_alnum (unicode_lower : N -> list N) :
  QueryMatcher._norm unicode_lower None = [] /\
  QueryMatcher._norm unicode_lower (Some []) = [] /\
  forall s : str,
    QueryMatcher._norm unicode_lower (Some s)
      = List.filter is_az09 (lower unicode_lower s) /\
    QueryMatcher._norm unicode_lower (Some s) = canonical unicode_lower s.
Proof.
  split; [reflexivity|]. split; [reflexivity|].
  intros s. rewrite norm_filter, or_empty_Some.
  split; [reflexivity | apply filter_lower].
Qed.

(** C10.  [_norm] is idempotent, and the decision on free text is the same
    for a text and for its canonical form. *)
Theorem norm_idempotent (unicode_lower : N -> list N) (s : option str) :
  QueryMatcher._norm unicode_lower (Some (QueryMatcher._norm unicode_lower s))
    = QueryMatcher._norm unicode_lower s /\
  QueryMatcher.matches_supported_query unicode_lower
      (Some (QueryMatcher._norm unicode_lower s))
    = QueryMatcher.matches_supported_query unicode_lower s.
Proof.
  assert (E : QueryMatcher._norm unicode_lower
                (Some (QueryMatcher._norm unicode_lower s))
              = QueryMatcher._norm unicode_lower s).
  { rewrite (norm_filter _ (Some _)), or_empty_Some.
    rewrite lower_az09_id by apply norm_az09.
    apply filter_az09_id, norm_az09. }
  split; [exact E|].
  unfold QueryMatcher.matches_supported_query. rewrite E. reflexivity.
Qed.

(** ** QueryMatcher: the decision on free text *)

(** C6.  The decision is true exactly when the canonical form equals that
    of the reference phrase, or has "predict", one of "mainbearing" and
    "mb", and one of "next2months", "nexttwomonths" and "next60days" as
    substrings; it is false on [None] and on the empty string, and true on
    "predict mb next 60 days". *)
Theorem matches_supported_query_spec (unicode_lower : N -> list N) :
  (forall free_text : option str,
     let qn := QueryMatcher._norm unicode_lower free_text in
     QueryMatcher.matches_supported_query unicode_lower free_text = true <->
     qn = QueryMatcher._norm unicode_lower (Some reference_phrase) \/
     (occurs (lit "predict") qn /\
      (occurs (lit "mainbearing") qn \/ occurs (lit "mb") qn) /\
      (occurs (lit "next2months") qn \/ occurs (lit "nexttwomonths") qn
       \/ occurs (lit "next60days") qn))) /\
  QueryMatcher.matches_supported_query unicode_lower (Some []) = false /\
  QueryMatcher.matches_supported_query unicode_lower None = false /\
  QueryMatcher.matches_supported_query unicode_lower
    (Some (lit "predict mb next 60 days")) = true.
Proof.
  split; [|repeat split; vm_compute; reflexivity].
  intros free_text qn. unfold QueryMatcher.matches_supported_query.
  fold qn. fold reference_phrase. unfold Text.eqb, QueryMatcher.SUPPORTED_NORM.
  fold reference_phrase.
  rewrite <- !contains_spec. case_bool_decide as E.
  - split; [intros _; left; exact E | reflexivity].
  - match goal with
    | |- (if ?b then true else false) = true <-> _ => destruct b eqn:B
    end.
    + split; [intros _; right | reflexivity].
      rewrite !andb_true_iff, !orb_true_iff in B. tauto.
    + split; [discriminate|]. intros [H | H]; [contradiction|].
      apply not_true_iff_false in B. exfalso. apply B.
      rewrite !andb_true_iff, !orb_true_iff. tauto.
Qed.

(** C2.  The misspelt phrase ("beraing") does not get the canonical form of
    the reference phrase and is turned down, with the submit button
    pressed, while the reference phrase is accepted. *)
Theorem misspelt_phrase_not_matched (unicode_lower : N -> list N) :
  QueryMatcher._norm unicode_lower (Some reference_phrase)
    = lit "predictthemainbearingfailuresinthenext2months" /\
  QueryMatcher._norm unicode_lower (Some misspelt_phrase)
    = lit "predictthemainberaingfailuresinthenext2months" /\
  QueryMatcher._norm unicode_lower (Some misspelt_phrase)
    <> QueryMatcher._norm unicode_lower (Some reference_phrase) /\
  QueryMatcher.matches_supported_query unicode_lower (Some reference_phrase) = true /\
  QueryMatcher.matches_supported_query unicode_lower (Some misspelt_phrase) = false /\
  QueryMatcher.go_to_sentinel unicode_lower (Some QueryMatcher.qa_submit)
    (Some 1%Z) (Some [0; 0; 0; 0]%Z) (Some misspelt_phrase)
    = QueryMatcher.PreventUpdate.
Proof.
  repeat split; try (vm_compute; reflexivity).
  vm_compute. discriminate.
Qed.

(** ** QueryMatcher: the decision on a chip click *)

Lemma py_index_nonneg (l : list Z) (i : Z) :
  (0 <= i < Z.of_nat (length l))%Z ->
  exists n, QueryMatcher.py_index l i = Some n /\ l !! Z.to_nat i = Some n.
Proof.
  intros [H0 H1]. unfold QueryMatcher.py_index.
  destruct (Z.leb_spec 0 i); [|lia].
  destruct (lookup_lt_is_Some_2 l (Z.to_nat i)) as [n Hn]; [lia|].
  exists n. split; exact Hn.
Qed.

(** C7.  A click on a suggestion chip does not reach the chip branch: the
    id text that Dash writes starts with the ["index"] entry, not with
    ['{"type":"qchip"'], so [go_to_sentinel] ends in [PreventUpdate] for
    every chip, chip 0 included, although the branch itself would send
    chip 0 to Sentinel.  Inside the branch, an index below minus the number
    of click counts is not caught by the guards and raises [IndexError]. *)
Theorem chip_click_does_not_redirect (unicode_lower : N -> list N) :
  (forall (index_text : string) (idx : QueryMatcher.json)
          (ask_clicks : option Z) (chip_clicks : option (list Z))
          (free_text : option str),
     QueryMatcher.go_to_sentinel unicode_lower
       (Some (QueryMatcher.dict_id (QueryMatcher.dash_qchip_id index_text) idx))
       ask_clicks chip_clicks free_text
     = QueryMatcher.PreventUpdate) /\
  QueryMatcher.go_to_sentinel unicode_lower
    (Some (QueryMatcher.dict_id (QueryMatcher.dash_qchip_id "0")
             (QueryMatcher.JInt 0)))
    (Some 0%Z) (Some [1; 0; 0; 0]%Z) None
  = QueryMatcher.PreventUpdate /\
  QueryMatcher.resolve_chip_selection (QueryMatcher.JInt 0)
    (Some [1; 0; 0; 0]%Z)
  = QueryMatcher.Return QueryMatcher.SENTINEL_REDIRECT /\
  QueryMatcher.resolve_chip_selection (QueryMatcher.JInt (-5))
    (Some [1; 0; 0; 0]%Z)
  = QueryMatcher.IndexError.
Proof.
  assert (P : forall index_text,
            String.prefix QueryMatcher.qchip_prefix
              (QueryMatcher.dash_qchip_id index_text) = false)
    by (intros index_text; reflexivity).
  split.
  - intros index_text idx ask_clicks chip_clicks free_text.
    unfold QueryMatcher.go_to_sentinel. rewrite P. reflexivity.
  - repeat split.
Qed.

(** The chips of the layout: indices 1, 2 and 3 never redirect, index 0
    does once clicked, and a chip whose count is still 0 does not. *)
Example resolve_chip_selection_chips :
  QueryMatcher.resolve_chip_selection (QueryMatcher.JInt 0) (Some [1; 0; 0; 0]%Z)
    = QueryMatcher.Return QueryMatcher.SENTINEL_REDIRECT /\
  QueryMatcher.resolve_chip_selection (QueryMatcher.JInt 1) (Some [0; 1; 0; 0]%Z)
    = QueryMatcher.PreventUpdate /\
  QueryMatcher.resolve_chip_selection (QueryMatcher.JInt 2) (Some [0; 0; 1; 0]%Z)
    = QueryMatcher.PreventUpdate /\
  QueryMatcher.resolve_chip_selection (QueryMatcher.JInt 3) (Some [0; 0; 0; 1]%Z)
    = QueryMatcher.PreventUpdate /\
  QueryMatcher.resolve_chip_selection (QueryMatcher.JInt 0) (Some [0; 0; 0; 0]%Z)
    = QueryMatcher.PreventUpdate /\
  QueryMatcher.resolve_chip_selection (QueryMatcher.JInt 7) (Some [1; 1; 1; 1]%Z)
    = QueryMatcher.PreventUpdate.
Proof. repeat split. Qed.

(** A negative index below the length of the click counts is not caught by
    the guards and the subscript raises; the index [false] of a JSON id
    counts as 0. *)
Example resolve_chip_selection_negative :
  QueryMatcher.resolve_chip_selection (QueryMatcher.JInt (-5)) (Some [1; 0; 0; 0]%Z)
    = QueryMatcher.IndexError /\
  QueryMatcher.resolve_chip_selection (QueryMatcher.JBool false)
    (Some [1; 0; 0; 0]%Z)
    = QueryMatcher.Return QueryMatcher.SENTINEL_REDIRECT.
Proof. split; reflexivity. Qed.

(** ** Scenario selection *)

Section StartFlow.

Import QueryMatcher.

Variable unicode_lower : N -> list N.
Variable search_value : option str.
Variable s : screen.

Let wind : bool :=
  contains (lit "wind") (lower unicode_lower (or_empty search_value)).

Lemma start_flow_wind :
  truthy search_value = true -> wind = true ->
  after_start_flow unicode_lower (Some go) search_value s
  = {| stage_data := loading;
       loader_status := text "Initializing turbine sensors A0–A71...";
       error_display := text "" |}.
Proof.
  unfold wind, after_start_flow, start_flow. intros -> ->. reflexivity.
Qed.

Lemma start_flow_other :
  truthy search_value = true -> wind = false ->
  after_start_flow unicode_lower (Some go) search_value s
  = {| stage_data := stage_data s;
       loader_status := loader_status s;
       error_display := unsupported_scenario |}.
Proof.
  unfold wind, after_start_flow, start_flow. intros -> ->. reflexivity.
Qed.

Lemma start_flow_empty :
  truthy search_value = false ->
  after_start_flow unicode_lower (Some go) search_value s
  = {| stage_data := stage_data s;
       loader_status := loader_status s;
       error_display := empty_selection |}.
Proof.
  unfold after_start_flow, start_flow. intros ->. reflexivity.
Qed.

Lemma wind_occurs :
  truthy search_value = true ->
  wind = true <->
  exists t, search_value = Some t /\ occurs (lit "wind") (lower unicode_lower t).
Proof.
  intros T. unfold wind. rewrite contains_spec.
  destruct search_value as [t|]; [|discriminate].
  rewrite or_empty_Some. split.
  - intros H. exists t. split; [reflexivity | exact H].
  - intros (t' & E & H). injection E as ->. exact H.
Qed.

Lemma falsy_no_wind :
  truthy search_value = false ->
  ~ exists t, search_value = Some t /\ occurs (lit "wind") (lower unicode_lower t).
Proof.
  intros T (t & -> & pre & post & H).
  destruct t as [|c t]; [|discriminate].
  destruct pre; discriminate.
Qed.

End StartFlow.

(** C8.  From the [select] stage, pressing "go" leads to [loading] exactly
    when the text, lower-cased, contains "wind"; any other non-empty text
    leaves stage and loader status as they were and shows the
    unsupported-scenario message; empty or missing text leaves them as they
    were and shows the empty-selection message. *)
Theorem start_flow_go (unicode_lower : N -> list N)
    (search_value : option str) (s : QueryMatcher.screen) :
  QueryMatcher.stage_data s = QueryMatcher.select ->
  let s' := QueryMatcher.after_start_flow unicode_lower
              (Some QueryMatcher.go) search_value s in
  (QueryMatcher.stage_data s' = QueryMatcher.loading <->
   exists t, search_value = Some t /\
             occurs (lit "wind") (lower unicode_lower t)) /\
  (truthy search_value = true ->
   ~ occurs (lit "wind") (lower unicode_lower (or_empty search_value)) ->
   QueryMatcher.stage_data s' = QueryMatcher.stage_data s /\
   QueryMatcher.loader_status s' = QueryMatcher.loader_status s /\
   QueryMatcher.error_display s' = QueryMatcher.unsupported_scenario) /\
  (truthy search_value = false ->
   QueryMatcher.stage_data s' = QueryMatcher.stage_data s /\
   QueryMatcher.loader_status s' = QueryMatcher.loader_status s /\
   QueryMatcher.error_display s' = QueryMatcher.empty_selection).
Proof.
  intros Hsel s'. subst s'. split; [|split].
  - destruct (truthy search_value) eqn:T.
    + rewrite <- (wind_occurs unicode_lower search_value T).
      destruct (contains (lit "wind")
                  (lower unicode_lower (or_empty search_value))) eqn:W.
      * rewrite (start_flow_wind _ _ s T W). split; reflexivity.
      * rewrite (start_flow_other _ _ s T W). simpl. rewrite Hsel.
        split; discriminate.
    + rewrite (start_flow_empty unicode_lower _ s T). simpl. rewrite Hsel.
      split; [discriminate|]. intros H.
      destruct (falsy_no_wind unicode_lower search_value T H).
  - intros T Hn. rewrite <- contains_spec in Hn.
    apply not_true_is_false in Hn.
    rewrite (start_flow_other _ _ s T Hn). repeat split.
  - intros T. rewrite (start_flow_empty unicode_lower _ s T). repeat split.
Qed.

Lemma start_flow_go_witness :
  QueryMatcher.stage_data fresh_screen = QueryMatcher.select /\
  QueryMatcher.stage_data
    (QueryMatcher.after_start_flow (fun c => [c]) (Some QueryMatcher.go)
       (Some (lit "Wind turbines (Sentinel)")) fresh_screen)
  = QueryMatcher.loading.
Proof.
  split; [reflexivity|].
  apply (start_flow_go (fun c => [c]) (Some (lit "Wind turbines (Sentinel)"))
           fresh_screen eq_refl).
  exists (lit "Wind turbines (Sentinel)"). split; [reflexivity|].
  apply contains_spec. reflexivity.
Defined.

(** The three cases on the scenarios of the page. *)
Example start_flow_scenarios (unicode_lower : N -> list N) :
  QueryMatcher.stage_data
    (QueryMatcher.after_start_flow unicode_lower (Some QueryMatcher.go)
       (Some (lit "WIND farm")) fresh_screen) = QueryMatcher.loading /\
  QueryMatcher.after_start_flow unicode_lower (Some QueryMatcher.go)
    (Some (lit "grid")) fresh_screen
    = {| QueryMatcher.stage_data := QueryMatcher.select;
         QueryMatcher.loader_status := QueryMatcher.text "";
         QueryMatcher.error_display := QueryMatcher.unsupported_scenario |} /\
  QueryMatcher.after_start_flow unicode_lower (Some QueryMatcher.go) (Some [])
    fresh_screen
    = {| QueryMatcher.stage_data := QueryMatcher.select;
         QueryMatcher.loader_status := QueryMatcher.text "";
         QueryMatcher.error_display := QueryMatcher.empty_selection |}.
Proof. repeat split. Qed.

(** ** GraphBuilder: shape of the result *)

Section GraphFacts.

Import GraphBuilder.

Lemma out_nodes_elements (ns : list node) (es : list edge) :
  out_nodes (as_nodes ns ++ List.map edge_element es) = ns.
Proof.
  unfold out_nodes, as_nodes. induction ns as [|n ns IH]; simpl.
  - induction es as [|e es IHe]; simpl; [reflexivity | exact IHe].
  - cbn. f_equal. exact IH.
Qed.

Lemma out_edges_elements (ns : list node) (es : list edge) :
  out_edges (as_nodes ns ++ List.map edge_element es) = es.
Proof.
  unfold out_edges, as_nodes. induction ns as [|n ns IH]; simpl.
  - induction es as [|e es IHe]; cbn; [reflexivity | f_equal; exact IHe].
  - exact IH.
Qed.

Lemma map_id_paint (bg bd : string) (l : list node) :
  List.map id (List.map (paint bg bd) l) = List.map id l.
Proof. rewrite List.map_map. reflexivity. Qed.

Lemma map_key_paint (bg bd : string) (l : list node) :
  List.map key (List.map (paint bg bd) l) = List.map key l.
Proof. rewrite List.map_map. reflexivity. Qed.

Lemma enabled_In (layers : option (list string)) (c : string) :
  enabled layers c = true <-> In c (toggles layers).
Proof.
  unfold enabled. rewrite bool_decide_eq_true, elem_of_list_to_set.
  apply list_elem_of_In.
Qed.

Lemma present_In (layers : option (list string)) (g : catalog) (x : string) :
  x ∈ present layers g <-> In x (List.map id (shown layers g)).
Proof. unfold present. rewrite elem_of_list_to_set. apply list_elem_of_In. Qed.

Lemma kept_In (layers : option (list string)) (g : catalog) (e : edge) :
  kept (present layers g) e = true <->
  In (source e) (List.map id (shown layers g)) /\
  In (target e) (List.map id (shown layers g)).
Proof.
  unfold kept. rewrite andb_true_iff, !bool_decide_eq_true, !present_In.
  reflexivity.
Qed.

Variable uniform : nat -> float.
Variable layers : option (list string).
Variable g : catalog.

Lemma update_elements_nodes_ids :
  List.map id (out_nodes (fst (update_elements uniform layers g)))
  = List.map id (shown layers g).
Proof.
  unfold update_elements, shown, enabled, toggles. cbn [fst].
  rewrite out_nodes_elements.
  repeat case_bool_decide;
    rewrite ?List.map_app, ?map_id_paint, ?List.app_nil_r, <- ?List.app_assoc;
    reflexivity.
Qed.

Lemma update_elements_edges :
  out_edges (fst (update_elements uniform layers g))
  = List.filter (kept (present layers g))
      (vary uniform (present layers g) 0 (BASE_EDGES g)) /\
  BASE_EDGES (snd (update_elements uniform layers g))
  = vary uniform (present layers g) 0 (BASE_EDGES g).
Proof.
  assert (E : forall ns, List.map id ns = List.map id (shown layers g) ->
              (list_to_set (List.map id ns) : gset string) = present layers g).
  { intros ns ->. reflexivity. }
  unfold update_elements. cbn [fst snd BASE_EDGES].
  rewrite out_edges_elements.
  match goal with
  | |- context [vary uniform (list_to_set (List.map id ?ns))] =>
      rewrite (E ns)
  end; [split; reflexivity|].
  unfold shown, enabled, toggles.
  repeat case_bool_decide;
    rewrite ?List.map_app, ?map_id_paint, ?List.app_nil_r, <- ?List.app_assoc;
    reflexivity.
Qed.

End GraphFacts.

(** ** GraphBuilder: the weight loop *)

Section VaryFacts.

Import GraphBuilder.

Variable uniform : nat -> float.
Variable P : gset string.

Lemma kept_set_weight (w : float) (e : edge) : kept P (set_weight w e) = kept P e.
Proof. reflexivity. Qed.

Lemma vary_endpoints (k : nat) (es : list edge) :
  List.map endpoints (vary uniform P k es) = List.map endpoints es.
Proof.
  revert k. induction es as [|e es IH]; intros k; simpl; [reflexivity|].
  destruct (kept P e); simpl; rewrite IH; reflexivity.
Qed.

(** Each edge of the table has a counterpart after the loop, with the same
    endpoints, and conversely. *)
Lemma vary_forth (k : nat) (es : list edge) (e : edge) :
  In e es ->
  exists e', In e' (vary uniform P k es) /\ endpoints e' = endpoints e.
Proof.
  revert k. induction es as [|x es IH]; intros k; simpl; [contradiction|].
  intros [-> | H].
  - destruct (kept P e); eexists; (split; [left; reflexivity | reflexivity]).
  - destruct (kept P x);
      [destruct (IH (S k) H) as (e' & He' & E) | destruct (IH k H) as (e' & He' & E)];
      exists e'; (split; [right; exact He' | exact E]).
Qed.

Lemma vary_back (k : nat) (es : list edge) (e' : edge) :
  In e' (vary uniform P k es) ->
  exists e, In e es /\ endpoints e' = endpoints e.
Proof.
  revert k. induction es as [|x es IH]; intros k; simpl; [contradiction|].
  destruct (kept P x); simpl.
  - intros [<- | H]; [exists x; split; [left; reflexivity | reflexivity]|].
    destruct (IH _ H) as (e & He & E). exists e. split; [right; exact He | exact E].
  - intros [<- | H]; [exists x; split; [left; reflexivity | reflexivity]|].
    destruct (IH _ H) as (e & He & E). exists e. split; [right; exact He | exact E].
Qed.

Lemma kept_endpoints (e e' : edge) :
  endpoints e' = endpoints e -> kept P e' = kept P e.
Proof. unfold endpoints, kept. intros [= -> ->]. reflexivity. Qed.

End VaryFacts.

(** C5.  An edge of the table is emitted, with its source and target,
    exactly when both of them are ids of emitted nodes; and every emitted
    edge has both ends among the emitted nodes. *)
Theorem edges_follow_present_nodes (uniform : nat -> float)
    (layers : option (list string)) (g : GraphBuilder.catalog)
    (e : GraphBuilder.edge) :
  In e (GraphBuilder.BASE_EDGES g) ->
  let out := fst (GraphBuilder.update_elements uniform layers g) in
  let ids := List.map GraphBuilder.id (GraphBuilder.out_nodes out) in
  ((exists e', In e' (GraphBuilder.out_edges out) /\
               GraphBuilder.source e' = GraphBuilder.source e /\
               GraphBuilder.target e' = GraphBuilder.target e) <->
   In (GraphBuilder.source e) ids /\ In (GraphBuilder.target e) ids) /\
  (forall e', In e' (GraphBuilder.out_edges out) ->
              In (GraphBuilder.source e') ids /\ In (GraphBuilder.target e') ids).
Proof.
  intros He out ids. subst out ids.
  rewrite update_elements_nodes_ids.
  destruct (update_elements_edges uniform layers g) as [-> _].
  assert (Hout : forall e', In e' (List.filter
                   (GraphBuilder.kept (GraphBuilder.present layers g))
                   (GraphBuilder.vary uniform (GraphBuilder.present layers g) 0
                      (GraphBuilder.BASE_EDGES g))) ->
                 In (GraphBuilder.source e')
                    (List.map GraphBuilder.id (GraphBuilder.shown layers g)) /\
                 In (GraphBuilder.target e')
                    (List.map GraphBuilder.id (GraphBuilder.shown layers g))).
  { intros e' H. apply List.filter_In in H as [_ H]. apply kept_In, H. }
  split; [split|exact Hout].
  - intros (e' & H & Es & Et). rewrite <- Es, <- Et. apply Hout, H.
  - intros H. apply kept_In in H.
    destruct (vary_forth uniform (GraphBuilder.present layers g) 0 _ _ He)
      as (e' & He' & E).
    exists e'. split.
    + apply List.filter_In. split; [exact He'|].
      rewrite (kept_endpoints _ _ _ E). exact H.
    + unfold GraphBuilder.endpoints in E. injection E as -> ->. split; reflexivity.
Qed.

Lemma edges_follow_present_nodes_witness :
  In (GraphBuilder.link "active_power" "power_efficiency" 0.9%float)
     (GraphBuilder.BASE_EDGES GraphBuilder.startup) /\
  exists e',
    In e' (GraphBuilder.out_edges
             (fst (GraphBuilder.update_elements (fun _ => 1%float)
                     (Some ["physics"]) GraphBuilder.startup))) /\
    GraphBuilder.source e' = "active_power" /\
    GraphBuilder.target e' = "power_efficiency".
Proof.
  assert (H : In (GraphBuilder.link "active_power" "power_efficiency" 0.9%float)
                 (GraphBuilder.BASE_EDGES GraphBuilder.startup))
    by (left; reflexivity).
  split; [exact H|].
  apply (edges_follow_present_nodes (fun _ => 1%float) (Some ["physics"])
           GraphBuilder.startup _ H).
  split; vm_compute; tauto.
Defined.

(** ** GraphBuilder: which nodes are shown *)

Section ShownFacts.

Import GraphBuilder.

Lemma NoDup_map_eq {A B : Type} (f : A -> B) (l : list A) (x y : A) :
  List.NoDup (List.map f l) -> In x l -> In y l -> f x = f y -> x = y.
Proof.
  induction l as [|a l IH]; simpl; [contradiction|].
  intros Hnd Hx Hy E. inversion Hnd as [|? ? Hna Hnd']; subst.
  destruct Hx as [-> | Hx], Hy as [-> | Hy].
  - reflexivity.
  - exfalso. apply Hna. rewrite E. apply List.in_map, Hy.
  - exfalso. apply Hna. rewrite <- E. apply List.in_map, Hx.
  - apply IH; assumption.
Qed.

Variable layers : option (list string).
Variable g : catalog.

Lemma shown_In (n : node) :
  In n (shown layers g) <->
  In n (RAW_FEATURES g) \/ In n (OUTCOMES g) \/
  (enabled layers "physics" = true /\ In n (PHYSICS_FEATURES g)) \/
  (enabled layers "statistical" = true /\ In n (STATISTICAL_FEATURES g)) \/
  (enabled layers "anomaly" = true /\ In n (ANOMALY_FEATURES g)).
Proof.
  unfold shown. rewrite !List.in_app_iff.
  destruct (enabled layers "physics"), (enabled layers "statistical"),
    (enabled layers "anomaly"); simpl; intuition congruence.
Qed.

Lemma all_nodes_In (n : node) :
  In n (all_nodes g) <->
  In n (RAW_FEATURES g) \/ In n (PHYSICS_FEATURES g) \/
  In n (STATISTICAL_FEATURES g) \/ In n (ANOMALY_FEATURES g) \/
  In n (OUTCOMES g).
Proof. unfold all_nodes. rewrite !List.in_app_iff. reflexivity. Qed.

Lemma shown_all (n : node) : In n (shown layers g) -> In n (all_nodes g).
Proof. rewrite shown_In, all_nodes_In. tauto. Qed.

Hypothesis Hwf : well_formed g.

(** A shown feature is raw, an outcome, or of an enabled category. *)
Lemma shown_classes (n : node) :
  In n (shown layers g) ->
  classes n = "raw" \/ classes n = "outcome" \/ In (classes n) (toggles layers).
Proof.
  destruct Hwf as (Hr & Hp & Hs & Ha & Ho & _).
  rewrite List.Forall_forall in Hr, Hp, Hs, Ha, Ho.
  rewrite shown_In. intros [H | [H | [[E H] | [[E H] | [E H]]]]].
  - left. apply Hr, H.
  - right; left. apply Ho, H.
  - right; right. rewrite (Hp _ H). apply enabled_In, E.
  - right; right. rewrite (Hs _ H). apply enabled_In, E.
  - right; right. rewrite (Ha _ H). apply enabled_In, E.
Qed.

(** Conversely, a feature of the catalog that is raw, an outcome, or of a
    category among the toggles is shown. *)
Lemma classes_shown (n : node) :
  In n (all_nodes g) ->
  classes n = "raw" \/ classes n = "outcome" \/ In (classes n) (toggles layers) ->
  In n (shown layers g).
Proof.
  destruct Hwf as (Hr & Hp & Hs & Ha & Ho & _).
  rewrite List.Forall_forall in Hr, Hp, Hs, Ha, Ho.
  rewrite all_nodes_In, shown_In.
  intros [H | [H | [H | [H | H]]]] Hc.
  - tauto.
  - right; right; left. split; [|exact H].
    rewrite (Hp _ H) in Hc. apply enabled_In.
    destruct Hc as [Hc | [Hc | Hc]]; [discriminate | discriminate | exact Hc].
  - right; right; right; left. split; [|exact H].
    rewrite (Hs _ H) in Hc. apply enabled_In.
    destruct Hc as [Hc | [Hc | Hc]]; [discriminate | discriminate | exact Hc].
  - right; right; right; right. split; [|exact H].
    rewrite (Ha _ H) in Hc. apply enabled_In.
    destruct Hc as [Hc | [Hc | Hc]]; [discriminate | discriminate | exact Hc].
  - tauto.
Qed.

Lemma shown_id_iff (n : node) :
  In n (all_nodes g) ->
  In (id n) (List.map id (shown layers g)) <->
  classes n = "raw" \/ classes n = "outcome" \/ In (classes n) (toggles layers).
Proof.
  intros Hn. split.
  - intros H. apply List.in_map_iff in H as (m & E & Hm).
    assert (m = n) as ->.
    { destruct Hwf as (_ & _ & _ & _ & _ & Hnd).
      apply (NoDup_map_eq id (all_nodes g)); auto using shown_all. }
    apply shown_classes, Hm.
  - intros Hc. apply List.in_map. apply classes_shown; assumption.
Qed.

End ShownFacts.

Section StyledFacts.

Import GraphBuilder.

Lemma paint_styled (c bg bd : string) (l : list node) :
  style c = (bg, bd) ->
  List.Forall (fun n => classes n = c) l ->
  List.map (paint bg bd) l = List.map styled l.
Proof.
  intros Hs Hl. apply List.map_ext_in. intros n Hn.
  rewrite List.Forall_forall in Hl. unfold styled.
  rewrite (Hl n Hn), Hs. reflexivity.
Qed.

Variable uniform : nat -> float.
Variable layers : option (list string).
Variable g : catalog.

Lemma update_elements_out_nodes :
  well_formed g ->
  out_nodes (fst (update_elements uniform layers g))
  = List.map styled (shown layers g).
Proof.
  intros (Hr & Hp & Hs & Ha & Ho & _).
  unfold update_elements, shown, enabled, toggles. cbn [fst].
  rewrite out_nodes_elements.
  rewrite (paint_styled "raw" _ _ _ eq_refl Hr).
  rewrite (paint_styled "outcome" _ _ _ eq_refl Ho).
  rewrite (paint_styled "physics" _ _ _ eq_refl Hp).
  rewrite (paint_styled "statistical" _ _ _ eq_refl Hs).
  rewrite (paint_styled "anomaly" _ _ _ eq_refl Ha).
  repeat case_bool_decide;
    rewrite ?List.map_app, ?List.app_nil_r, <- ?List.app_assoc; reflexivity.
Qed.

(** Only the three optional tokens of the toggles are looked at. *)
Lemma update_elements_optional_only :
  update_elements uniform (Some (List.filter optional (toggles layers))) g
  = update_elements uniform layers g.
Proof.
  assert (E : forall c, optional c = true ->
                bool_decide (c ∈ (list_to_set (List.filter optional (toggles layers))
                                    : gset string))
                = bool_decide (c ∈ (list_to_set (toggles layers) : gset string))).
  { intros c Hc. apply bool_decide_ext.
    rewrite !elem_of_list_to_set, !list_elem_of_In, List.filter_In. tauto. }
  unfold update_elements. fold (toggles layers).
  change (match Some (List.filter optional (toggles layers)) with
          | Some l => l | None => [] end)
    with (List.filter optional (toggles layers)).
  rewrite !(E "physics" eq_refl), !(E "statistical" eq_refl),
    !(E "anomaly" eq_refl).
  reflexivity.
Qed.

End StyledFacts.

(** C4.  For a well-formed catalog and any toggles, a feature of the
    catalog has its id among the emitted nodes exactly when it is raw, an
    outcome, or of a category among the toggles, and it is then emitted
    with the colours of its category; tokens other than the three optional
    categories change nothing in the result. *)
Theorem shown_nodes_follow_toggles (uniform : nat -> float)
    (layers : option (list string)) (g : GraphBuilder.catalog)
    (n : GraphBuilder.node) :
  GraphBuilder.well_formed g ->
  In n (GraphBuilder.all_nodes g) ->
  let out := fst (GraphBuilder.update_elements uniform layers g) in
  let wanted :=
    GraphBuilder.classes n = "raw" \/ GraphBuilder.classes n = "outcome" \/
    In (GraphBuilder.classes n) (GraphBuilder.toggles layers) in
  (In (GraphBuilder.id n) (List.map GraphBuilder.id (GraphBuilder.out_nodes out))
   <-> wanted) /\
  (wanted -> In (GraphBuilder.styled n) (GraphBuilder.out_nodes out)) /\
  GraphBuilder.update_elements uniform
    (Some (List.filter GraphBuilder.optional (GraphBuilder.toggles layers))) g
  = GraphBuilder.update_elements uniform layers g.
Proof.
  intros Hwf Hn out wanted. subst out wanted.
  split; [|split].
  - rewrite update_elements_nodes_ids. apply shown_id_iff; assumption.
  - intros Hc. rewrite update_elements_out_nodes by exact Hwf.
    apply List.in_map. apply classes_shown; assumption.
  - apply update_elements_optional_only.
Qed.


Lemma startup_well_formed : GraphBuilder.well_formed GraphBuilder.startup.
Proof.
  unfold GraphBuilder.well_formed.
  repeat (split; [repeat constructor|]).
  apply (List.NoDup_count_occ' string_dec). 
  intros x Hx. simpl in Hx.
  repeat (destruct Hx as [<- | Hx]; [vm_compute; reflexivity|]).
  contradiction.
Qed.

Lemma shown_nodes_follow_toggles_witness :
  GraphBuilder.well_formed GraphBuilder.startup /\
  In (GraphBuilder.feature "power_efficiency" "Power Efficiency" "physics")
     (GraphBuilder.all_nodes GraphBuilder.startup) /\
  In (GraphBuilder.styled
        (GraphBuilder.feature "power_efficiency" "Power Efficiency" "physics"))
     (GraphBuilder.out_nodes
        (fst (GraphBuilder.update_elements (fun _ => 1%float)
                (Some ["physics"; "heatmap"]) GraphBuilder.startup))).
Proof.
  assert (Hn : In (GraphBuilder.feature "power_efficiency" "Power Efficiency"
                     "physics")
                  (GraphBuilder.all_nodes GraphBuilder.startup)).
  { unfold GraphBuilder.all_nodes. apply List.in_or_app. right.
    apply List.in_or_app. left. left. reflexivity. }
  split; [exact startup_well_formed|]. split; [exact Hn|].
  apply (shown_nodes_follow_toggles (fun _ => 1%float) (Some ["physics"; "heatmap"])
           GraphBuilder.startup _ startup_well_formed Hn).
  right. right. left. reflexivity.
Defined.

(** ** GraphBuilder: what a call leaves in the catalog *)

Section FrameFacts.

Import GraphBuilder.

Lemma paint_coloured (bg bd : string) (l : list node) :
  List.Forall (coloured bg bd) (List.map (paint bg bd) l).
Proof.
  apply List.Forall_forall. intros n Hn.
  apply List.in_map_iff in Hn as (m & <- & _). split; reflexivity.
Qed.

Lemma well_formed_keys (g g' : catalog) :
  List.map key (RAW_FEATURES g') = List.map key (RAW_FEATURES g) ->
  List.map key (PHYSICS_FEATURES g') = List.map key (PHYSICS_FEATURES g) ->
  List.map key (STATISTICAL_FEATURES g') = List.map key (STATISTICAL_FEATURES g) ->
  List.map key (ANOMALY_FEATURES g') = List.map key (ANOMALY_FEATURES g) ->
  List.map key (OUTCOMES g') = List.map key (OUTCOMES g) ->
  well_formed g -> well_formed g'.
Proof.
  assert (Hc : forall c (l l' : list node),
            List.map key l' = List.map key l ->
            List.Forall (fun n => classes n = c) l ->
            List.Forall (fun n => classes n = c) l').
  { intros c l l'. revert l. induction l' as [|a l' IH]; intros [|b l] E H;
      try discriminate; constructor; inversion H; subst;
      injection E as Ea E.
    - unfold key in Ea. congruence.
    - eapply IH; eassumption. }
  assert (Hi : forall l l' : list node,
            List.map key l' = List.map key l -> List.map id l' = List.map id l).
  { intros l l' E.
    assert (Ef : forall k : list node,
              List.map id k = List.map (fun p => fst (fst p)) (List.map key k)).
    { intros k. rewrite List.map_map. reflexivity. }
    rewrite (Ef l), (Ef l'), E. reflexivity. }
  intros Er Ep Es Ea Eo (Hr & Hp & Hs & Ha & Ho & Hnd).
  unfold well_formed. repeat split; eauto.
  unfold all_nodes in *. rewrite !List.map_app in *.
  rewrite (Hi _ _ Er), (Hi _ _ Ep), (Hi _ _ Es), (Hi _ _ Ea), (Hi _ _ Eo).
  exact Hnd.
Qed.

End FrameFacts.

(** C3 (as amended).  A call never changes the id, label or category of a
    feature dict, nor the order of a table, nor the source or target of an
    edge.  It does write colours into the catalog: every raw and outcome
    feature, and every feature of a category among the toggles, gets the
    colour pair of its category, while the features of a category that is
    not among the toggles are left as they were. *)
Theorem update_elements_frame (uniform : nat -> float)
    (layers : option (list string)) (g : GraphBuilder.catalog) :
  let g' := snd (GraphBuilder.update_elements uniform layers g) in
  let on c := In c (GraphBuilder.toggles layers) in
  (List.map GraphBuilder.key (GraphBuilder.RAW_FEATURES g')
     = List.map GraphBuilder.key (GraphBuilder.RAW_FEATURES g) /\
   List.map GraphBuilder.key (GraphBuilder.PHYSICS_FEATURES g')
     = List.map GraphBuilder.key (GraphBuilder.PHYSICS_FEATURES g) /\
   List.map GraphBuilder.key (GraphBuilder.STATISTICAL_FEATURES g')
     = List.map GraphBuilder.key (GraphBuilder.STATISTICAL_FEATURES g) /\
   List.map GraphBuilder.key (GraphBuilder.ANOMALY_FEATURES g')
     = List.map GraphBuilder.key (GraphBuilder.ANOMALY_FEATURES g) /\
   List.map GraphBuilder.key (GraphBuilder.OUTCOMES g')
     = List.map GraphBuilder.key (GraphBuilder.OUTCOMES g) /\
   List.map GraphBuilder.endpoints (GraphBuilder.BASE_EDGES g')
     = List.map GraphBuilder.endpoints (GraphBuilder.BASE_EDGES g)) /\
  (List.Forall (GraphBuilder.coloured "#3b82f6" "#2563eb") (GraphBuilder.RAW_FEATURES g') /\
   List.Forall (GraphBuilder.coloured "#f59e0b" "#d97706") (GraphBuilder.OUTCOMES g')) /\
  ((on "physics" ->
    List.Forall (GraphBuilder.coloured "#10b981" "#059669") (GraphBuilder.PHYSICS_FEATURES g')) /\
   (on "statistical" ->
    List.Forall (GraphBuilder.coloured "#8b5cf6" "#7c3aed") (GraphBuilder.STATISTICAL_FEATURES g')) /\
   (on "anomaly" ->
    List.Forall (GraphBuilder.coloured "#ef4444" "#dc2626") (GraphBuilder.ANOMALY_FEATURES g'))) /\
  ((~ on "physics" ->
    GraphBuilder.PHYSICS_FEATURES g' = GraphBuilder.PHYSICS_FEATURES g) /\
   (~ on "statistical" ->
    GraphBuilder.STATISTICAL_FEATURES g' = GraphBuilder.STATISTICAL_FEATURES g) /\
   (~ on "anomaly" ->
    GraphBuilder.ANOMALY_FEATURES g' = GraphBuilder.ANOMALY_FEATURES g)).
Proof.
  intros g' on. subst g' on.
  pose proof (enabled_In layers "physics") as Ep.
  pose proof (enabled_In layers "statistical") as Es.
  pose proof (enabled_In layers "anomaly") as Ea.
  unfold GraphBuilder.enabled, GraphBuilder.toggles in Ep, Es, Ea.
  unfold GraphBuilder.update_elements, GraphBuilder.toggles.
  cbn [snd GraphBuilder.RAW_FEATURES GraphBuilder.PHYSICS_FEATURES
         GraphBuilder.STATISTICAL_FEATURES GraphBuilder.ANOMALY_FEATURES
         GraphBuilder.OUTCOMES GraphBuilder.BASE_EDGES].
  split; [|split; [|split]].
  - rewrite vary_endpoints, !map_key_paint.
    repeat case_bool_decide; rewrite ?map_key_paint; repeat split.
  - split; apply paint_coloured.
  - repeat split; intros H;
      [apply Ep in H | apply Es in H | apply Ea in H];
      rewrite H; apply paint_coloured.
  - repeat split; intros H;
      [rewrite <- Ep in H | rewrite <- Es in H | rewrite <- Ea in H];
      apply not_true_is_false in H; rewrite H; reflexivity.
Qed.

(** The feature tables after a call. *)
Lemma update_elements_tables (uniform : nat -> float)
    (layers : option (list string)) (g : GraphBuilder.catalog) :
  let g' := snd (GraphBuilder.update_elements uniform layers g) in
  GraphBuilder.RAW_FEATURES g'
    = List.map (GraphBuilder.paint "#3b82f6" "#2563eb")
        (GraphBuilder.RAW_FEATURES g) /\
  GraphBuilder.PHYSICS_FEATURES g'
    = (if GraphBuilder.enabled layers "physics"
       then List.map (GraphBuilder.paint "#10b981" "#059669")
              (GraphBuilder.PHYSICS_FEATURES g)
       else GraphBuilder.PHYSICS_FEATURES g) /\
  GraphBuilder.STATISTICAL_FEATURES g'
    = (if GraphBuilder.enabled layers "statistical"
       then List.map (GraphBuilder.paint "#8b5cf6" "#7c3aed")
              (GraphBuilder.STATISTICAL_FEATURES g)
       else GraphBuilder.STATISTICAL_FEATURES g) /\
  GraphBuilder.ANOMALY_FEATURES g'
    = (if GraphBuilder.enabled layers "anomaly"
       then List.map (GraphBuilder.paint "#ef4444" "#dc2626")
              (GraphBuilder.ANOMALY_FEATURES g)
       else GraphBuilder.ANOMALY_FEATURES g) /\
  GraphBuilder.OUTCOMES g'
    = List.map (GraphBuilder.paint "#f59e0b" "#d97706")
        (GraphBuilder.OUTCOMES g).
Proof. repeat split. Qed.

Lemma update_elements_keys (uniform : nat -> float)
    (layers : option (list string)) (g : GraphBuilder.catalog) :
  let g' := snd (GraphBuilder.update_elements uniform layers g) in
  List.map GraphBuilder.key (GraphBuilder.RAW_FEATURES g')
    = List.map GraphBuilder.key (GraphBuilder.RAW_FEATURES g) /\
  List.map GraphBuilder.key (GraphBuilder.PHYSICS_FEATURES g')
    = List.map GraphBuilder.key (GraphBuilder.PHYSICS_FEATURES g) /\
  List.map GraphBuilder.key (GraphBuilder.STATISTICAL_FEATURES g')
    = List.map GraphBuilder.key (GraphBuilder.STATISTICAL_FEATURES g) /\
  List.map GraphBuilder.key (GraphBuilder.ANOMALY_FEATURES g')
    = List.map GraphBuilder.key (GraphBuilder.ANOMALY_FEATURES g) /\
  List.map GraphBuilder.key (GraphBuilder.OUTCOMES g')
    = List.map GraphBuilder.key (GraphBuilder.OUTCOMES g).
Proof.
  intros g'. subst g'.
  destruct (update_elements_tables uniform layers g)
    as (E1 & E2 & E3 & E4 & E5).
  rewrite E1, E2, E3, E4, E5.
  destruct (GraphBuilder.enabled layers "physics"),
    (GraphBuilder.enabled layers "statistical"),
    (GraphBuilder.enabled layers "anomaly");
    rewrite ?map_key_paint; repeat split.
Qed.

(** A call leaves a well-formed catalog well-formed. *)
Lemma update_elements_well_formed (uniform : nat -> float)
    (layers : option (list string)) (g : GraphBuilder.catalog) :
  GraphBuilder.well_formed g ->
  GraphBuilder.well_formed (snd (GraphBuilder.update_elements uniform layers g)).
Proof.
  destruct (update_elements_keys uniform layers g)
    as (Er & Ep & Es & Ea & Eo).
  apply well_formed_keys; assumption.
Qed.

(** C3 (as stated) fails: the first call with no toggle already changes
    the raw feature dicts of the catalog, which gain their colours. *)
Lemma update_elements_writes_catalog :
  GraphBuilder.RAW_FEATURES
    (snd (GraphBuilder.update_elements (fun _ => 1%float) (Some [])
            GraphBuilder.startup))
    <> GraphBuilder.RAW_FEATURES GraphBuilder.startup /\
  List.map GraphBuilder.bgcolor (GraphBuilder.RAW_FEATURES GraphBuilder.startup)
    = [None; None; None; None; None] /\
  List.map GraphBuilder.bgcolor
    (GraphBuilder.RAW_FEATURES
       (snd (GraphBuilder.update_elements (fun _ => 1%float) (Some [])
               GraphBuilder.startup)))
    = [Some "#3b82f6"; Some "#3b82f6"; Some "#3b82f6"; Some "#3b82f6";
       Some "#3b82f6"].
Proof.
  split; [|split; reflexivity].
  intros E. apply (f_equal (List.map GraphBuilder.bgcolor)) in E.
  vm_compute in E. discriminate.
Qed.

(** ** GraphBuilder: the emitted weights *)

(** C1.  Two calls in a row with the physics toggle and every draw equal
    to 1.08: the edge from [active_power] to [power_efficiency], which the
    literals give the weight 0.9, is emitted with 0.972 by the first call
    and with 1.05 by the second, above 1.1 * 0.9. *)
Theorem weight_leaves_band_on_second_call :
  let uniform : nat -> float := fun _ => 1.08%float in
  let calls := [(uniform, Some ["physics"]); (uniform, Some ["physics"])] in
  (forall k, PrimFloat.leb 0.9 (uniform k) && PrimFloat.leb (uniform k) 1.1
             = true) /\
  GraphBuilder.base_weight "active_power" "power_efficiency" = Some 0.9%float /\
  (exists first second,
     fst (GraphBuilder.run calls GraphBuilder.startup) = [first; second] /\
     In (GraphBuilder.link "active_power" "power_efficiency" 0.972)
        (GraphBuilder.out_edges first) /\
     In (GraphBuilder.link "active_power" "power_efficiency" 1.05)
        (GraphBuilder.out_edges second)) /\
  PrimFloat.leb 1.05 (1.1 * 0.9) = false.
Proof.
  intros uniform calls. split; [|split; [|split]].
  - intros k. reflexivity.
  - reflexivity.
  - eexists _, _. split; [vm_compute; reflexivity|].
    split; left; reflexivity.
  - reflexivity.
Qed.

(** Whatever calls were made since the module was loaded, the catalog is
    well-formed. *)
Lemma run_well_formed (calls : list ((nat -> float) * option (list string)))
    (g : GraphBuilder.catalog) :
  GraphBuilder.well_formed g ->
  GraphBuilder.well_formed (snd (GraphBuilder.run calls g)).
Proof.
  revert g. induction calls as [|[uniform layers] calls IH]; intros g Hg;
    [exact Hg|].
  cbn [GraphBuilder.run].
  pose proof (update_elements_well_formed uniform layers g Hg) as H.
  destruct (GraphBuilder.update_elements uniform layers g) as [els g'].
  specialize (IH g' H).
  destruct (GraphBuilder.run calls g') as [rest g'']. exact IH.
Qed.

(** ** More on the canonical form *)

Section NormMore.

Import QueryMatcher.

Variable unicode_lower : N -> list N.

Lemma lower_app (a b : str) :
  lower unicode_lower (a ++ b) = lower unicode_lower a ++ lower unicode_lower b.
Proof. unfold lower. apply List.flat_map_app. Qed.

Lemma norm_Some_app (a b : str) :
  _norm unicode_lower (Some (a ++ b))
  = _norm unicode_lower (Some a) ++ _norm unicode_lower (Some b).
Proof.
  rewrite !norm_filter, !or_empty_Some, lower_app. apply List.filter_app.
Qed.

Lemma norm_Some_cons (c : N) (b : str) :
  _norm unicode_lower (Some (c :: b))
  = canonical_cp unicode_lower c ++ _norm unicode_lower (Some b).
Proof.
  change (c :: b) with ([c] ++ b). rewrite norm_Some_app. f_equal.
  rewrite norm_filter, or_empty_Some, filter_lower. simpl.
  apply List.app_nil_r.
Qed.

Lemma canonical_cp_separator (c : N) :
  (c < 128)%N -> is_ascii_alnum c = false -> canonical_cp unicode_lower c = [].
Proof.
  intros Hc Hn. unfold canonical_cp. rewrite Hn.
  destruct (N.ltb_spec c 128); [reflexivity | lia].
Qed.

Lemma canonical_cp_ascii_lower (c : N) :
  canonical_cp unicode_lower (ascii_lower c) = canonical_cp unicode_lower c.
Proof.
  unfold ascii_lower.
  destruct ((65 <=? c)%N && (c <=? 90)%N) eqn:U; [|reflexivity].
  apply andb_true_iff in U as [U1 U2].
  apply N.leb_le in U1. apply N.leb_le in U2.
  assert (E1 : is_ascii_alnum (c + 32) = true).
  { unfold is_ascii_alnum, is_az09.
    destruct (N.leb_spec 97 (c + 32)), (N.leb_spec (c + 32) 122);
      try lia; try apply orb_true_r. }
  assert (E2 : is_ascii_alnum c = true).
  { unfold is_ascii_alnum.
    destruct (N.leb_spec 65 c), (N.leb_spec c 90); try lia; reflexivity. }
  unfold canonical_cp. rewrite E1, E2. unfold ascii_lower.
  destruct (N.leb_spec 65 c), (N.leb_spec c 90); try lia.
  destruct (N.leb_spec 65 (c + 32)), (N.leb_spec (c + 32) 90); try lia;
    reflexivity.
Qed.

End NormMore.

(** X1.  The canonical form is built character by character: that of a
    concatenation is the concatenation of the canonical forms. *)
Theorem norm_app (unicode_lower : N -> list N) (a b : str) :
  QueryMatcher._norm unicode_lower (Some (a ++ b))
  = QueryMatcher._norm unicode_lower (Some a)
    ++ QueryMatcher._norm unicode_lower (Some b).
Proof. apply norm_Some_app. Qed.

(** X2.  An ASCII character that is neither a letter nor a digit can be
    inserted anywhere without changing the canonical form, and so can the
    case of an ASCII letter be changed. *)
Theorem norm_separators_and_case (unicode_lower : N -> list N)
    (a b : str) (c : N) :
  (c < 128)%N ->
  (is_ascii_alnum c = false ->
   QueryMatcher._norm unicode_lower (Some (a ++ c :: b))
   = QueryMatcher._norm unicode_lower (Some (a ++ b))) /\
  QueryMatcher._norm unicode_lower (Some (a ++ ascii_lower c :: b))
  = QueryMatcher._norm unicode_lower (Some (a ++ c :: b)).
Proof.
  intros Hc. split.
  - intros Hn. rewrite !norm_Some_app, norm_Some_cons.
    rewrite (canonical_cp_separator _ _ Hc Hn). reflexivity.
  - rewrite !norm_Some_app, !norm_Some_cons, canonical_cp_ascii_lower.
    reflexivity.
Qed.

Lemma norm_separators_and_case_witness :
  (32 < 128)%N /\
  QueryMatcher._norm (fun c => [c]) (Some (lit "main" ++ 32%N :: lit "bearing"))
  = QueryMatcher._norm (fun c => [c]) (Some (lit "main" ++ lit "bearing")).
Proof.
  split; [reflexivity|].
  apply (norm_separators_and_case (fun c => [c]) (lit "main") (lit "bearing") 32%N);
    reflexivity.
Defined.

(** X3.  The canonical form holds nothing but the characters [a-z] and
    [0-9], whatever the text and whatever the lower-casing of characters
    outside ASCII. *)
Theorem norm_only_az09 (unicode_lower : N -> list N) (s : option str) :
  List.Forall (fun c => (97 <= c <= 122)%N \/ (48 <= c <= 57)%N)
    (QueryMatcher._norm unicode_lower s).
Proof.
  eapply List.Forall_impl; [|apply norm_az09].
  intros c H. unfold is_az09 in H.
  apply orb_true_iff in H as [H | H];
    apply andb_true_iff in H as [H1 H2];
    apply N.leb_le in H1; apply N.leb_le in H2; [left | right]; lia.
Qed.

(** ** More on the decision on free text *)

Section MatchMore.

Import QueryMatcher.

Variable unicode_lower : N -> list N.

Lemma keywords_contains (qn : str) :
  keywords qn <->
  contains (lit "predict") qn
  && (contains (lit "mainbearing") qn || contains (lit "mb") qn)
  && (contains (lit "next2months") qn || contains (lit "nexttwomonths") qn
      || contains (lit "next60days") qn) = true.
Proof.
  unfold keywords. rewrite !andb_true_iff, !orb_true_iff, !contains_spec. tauto.
Qed.

Lemma keywords_supported : keywords (SUPPORTED_NORM unicode_lower).
Proof. apply keywords_contains. vm_compute. reflexivity. Qed.

Lemma matches_keywords (free_text : option str) :
  matches_supported_query unicode_lower free_text = true <->
  keywords (_norm unicode_lower free_text).
Proof.
  unfold matches_supported_query, Text.eqb. case_bool_decide as E.
  - rewrite E. split; [intros _; apply keywords_supported | reflexivity].
  - rewrite keywords_contains.
    match goal with |- (if ?b then _ else _) = _ <-> _ => destruct b end;
      split; congruence.
Qed.

Lemma occurs_padded (sub t pre post : str) :
  occurs sub t -> occurs sub (pre ++ t ++ post).
Proof.
  intros (x & y & ->). exists (pre ++ x), (y ++ post).
  rewrite <- !List.app_assoc. reflexivity.
Qed.

Lemma keywords_padded (t pre post : str) :
  keywords t -> keywords (pre ++ t ++ post).
Proof.
  unfold keywords. intros (H1 & H2 & H3).
  split; [|split].
  - apply occurs_padded, H1.
  - destruct H2; [left | right]; apply occurs_padded; assumption.
  - destruct H3 as [H | [H | H]]; [left | right; left | right; right];
      apply occurs_padded; assumption.
Qed.

End MatchMore.

(** X4.  The decision on free text is the keyword test alone: the text is
    accepted exactly when its canonical form has "predict", one of
    "mainbearing" and "mb", and one of "next2months", "nexttwomonths" and
    "next60days" as substrings.  The comparison with the reference phrase
    accepts nothing that the keyword test would turn down. *)
Theorem matches_is_keyword_test (unicode_lower : N -> list N)
    (free_text : option str) :
  QueryMatcher.matches_supported_query unicode_lower free_text = true <->
  keywords (QueryMatcher._norm unicode_lower free_text).
Proof. apply matches_keywords. Qed.

(** X5.  Text around an accepted text does not matter: if a text is
    accepted, so is every text that contains it. *)
Theorem matches_padded (unicode_lower : N -> list N) (s pre post : str) :
  QueryMatcher.matches_supported_query unicode_lower (Some s) = true ->
  QueryMatcher.matches_supported_query unicode_lower (Some (pre ++ s ++ post))
  = true.
Proof.
  rewrite !matches_keywords, !norm_Some_app. apply keywords_padded.
Qed.

Lemma matches_padded_witness :
  QueryMatcher.matches_supported_query (fun c => [c])
    (Some (lit "predict mb next 60 days")) = true /\
  QueryMatcher.matches_supported_query (fun c => [c])
    (Some (lit "do not " ++ lit "predict mb next 60 days" ++ lit ", please"))
  = true.
Proof.
  split; [reflexivity|].
  apply (matches_padded (fun c => [c]) (lit "predict mb next 60 days")
           (lit "do not ") (lit ", please")).
  reflexivity.
Defined.

Lemma resolve_chip_selection_redirects (idx : QueryMatcher.json)
    (chip_clicks : option (list Z)) (href : string) :
  QueryMatcher.resolve_chip_selection idx chip_clicks = QueryMatcher.Return href
  <-> href = QueryMatcher.SENTINEL_REDIRECT /\
      QueryMatcher.as_int idx = Some 0%Z /\
      exists n rest, chip_clicks = Some (n :: rest) /\ (0 < n)%Z.
Proof.
  unfold QueryMatcher.resolve_chip_selection.
  destruct (QueryMatcher.as_int idx) as [z|];
    [|split; [discriminate | intros (_ & E & _); discriminate]].
  destruct chip_clicks as [[|c0 rest]|];
    try (split; [discriminate | intros (_ & _ & n & r & E & _); discriminate]).
  destruct (Z.leb_spec (Z.of_nat (length (c0 :: rest))) z) as [Hge|Hlt].
  { split; [discriminate|]. intros (_ & [= ->] & _). simpl in Hge. lia. }
  destruct (QueryMatcher.py_index (c0 :: rest) z) as [n|] eqn:P.
  - destruct (Z.leb_spec n 0) as [Hn|Hn].
    { split; [discriminate|].
      intros (_ & [= ->] & m & r & [= -> ->] & Hm).
      cbn in P. injection P as ->. lia. }
    destruct (Z.eqb_spec z 0) as [->|Hz].
    + cbn in P. injection P as ->.
      split; [intros [= <-] | intros [-> _]; reflexivity].
      split; [reflexivity|]. split; [reflexivity | eauto].
    + split; [discriminate|]. intros (_ & [= ->] & _). contradiction.
  - split; [discriminate|].
    intros (_ & [= ->] & m & r & [= -> ->] & Hm). cbn in P. discriminate.
Qed.

(** X6.  [go_to_sentinel] returns a link in two cases only, and the link
    is always the Sentinel address: the submit button fired, its click
    count is a number other than 0 and the text is accepted; or a component
    with a dict id fired, the text of the id starts with
    ['{"type":"qchip"'], the index of the id is 0 (or [false]) and the first
    click count is positive. *)
Theorem go_to_sentinel_redirects (unicode_lower : N -> list N)
    (triggered : option QueryMatcher.trigger) (ask_clicks : option Z)
    (chip_clicks : option (list Z)) (free_text : option str) (href : string) :
  QueryMatcher.go_to_sentinel unicode_lower triggered ask_clicks chip_clicks
    free_text = QueryMatcher.Return href <->
  href = QueryMatcher.SENTINEL_REDIRECT /\
  ((triggered = Some QueryMatcher.qa_submit /\
    (exists n, ask_clicks = Some n /\ n <> 0%Z) /\
    QueryMatcher.matches_supported_query unicode_lower free_text = true) \/
   (exists text idx n rest,
      triggered = Some (QueryMatcher.dict_id text idx) /\
      String.prefix QueryMatcher.qchip_prefix text = true /\
      QueryMatcher.as_int idx = Some 0%Z /\
      chip_clicks = Some (n :: rest) /\ (0 < n)%Z)).
Proof.
  unfold QueryMatcher.go_to_sentinel.
  destruct triggered as [[|text idx|]|].
  - destruct ask_clicks as [[|p|p]|];
      try (split; [discriminate |
                   intros [_ [(_ & (n & E & Hn) & _) | (t & i & n & r & E & _)]];
                   congruence]).
    + destruct (QueryMatcher.matches_supported_query unicode_lower free_text).
      * split; [intros [= <-] | intros [-> _]; reflexivity].
        split; [reflexivity|]. left. split; [reflexivity|].
        split; [|reflexivity].
        eexists. split; [reflexivity | discriminate].
      * split; [discriminate|].
        intros [_ [(_ & _ & E) | (t & i & n & r & E & _)]]; discriminate.
    + destruct (QueryMatcher.matches_supported_query unicode_lower free_text).
      * split; [intros [= <-] | intros [-> _]; reflexivity].
        split; [reflexivity|]. left. split; [reflexivity|].
        split; [|reflexivity].
        eexists. split; [reflexivity | discriminate].
      * split; [discriminate|].
        intros [_ [(_ & _ & E) | (t & i & n & r & E & _)]]; discriminate.
  - destruct (String.prefix QueryMatcher.qchip_prefix text) eqn:Pf.
    + rewrite resolve_chip_selection_redirects. split.
      * intros (-> & A & n & r & -> & Hn). split; [reflexivity|]. right.
        exists text, idx, n, r. auto.
      * intros [-> [(E & _) | (t & i & n & r & [= -> ->] & _ & A & -> & Hn)]];
          [discriminate|].
        split; [reflexivity|]. split; [exact A | eauto].
    + split; [discriminate|].
      intros [_ [(E & _) | (t & i & n & r & [= -> ->] & Pt & _)]];
        [discriminate | congruence].
  - split; [discriminate|].
    intros [_ [(E & _) | (t & i & n & r & E & _)]]; discriminate.
  - split; [discriminate|].
    intros [_ [(E & _) | (t & i & n & r & E & _)]]; discriminate.
Qed.

(** X7.  The chip branch fails with [IndexError] exactly when the index is
    an integer below minus the number of click counts (and there is at
    least one click count); a negative index within that range counts from
    the end and ends in [PreventUpdate]. *)
Theorem resolve_chip_selection_errors (idx : QueryMatcher.json)
    (chip_clicks : option (list Z)) :
  (QueryMatcher.resolve_chip_selection idx chip_clicks = QueryMatcher.IndexError
   <-> exists z l, idx = QueryMatcher.JInt z /\ chip_clicks = Some l /\
                   l <> [] /\ (z < - Z.of_nat (length l))%Z) /\
  (forall z l, idx = QueryMatcher.JInt z -> chip_clicks = Some l ->
               (- Z.of_nat (length l) <= z < 0)%Z ->
               QueryMatcher.resolve_chip_selection idx chip_clicks
               = QueryMatcher.PreventUpdate).
Proof.
  assert (In_range : forall (l : list Z) z,
            (- Z.of_nat (length l) <= z < Z.of_nat (length l))%Z ->
            exists n, QueryMatcher.py_index l z = Some n).
  { intros l z Hz. unfold QueryMatcher.py_index.
    destruct (Z.leb_spec 0 z).
    - apply lookup_lt_is_Some_2. lia.
    - destruct (Z.leb_spec (- Z.of_nat (length l)) z); [|lia].
      apply lookup_lt_is_Some_2. lia. }
  assert (Below : forall (l : list Z) z,
            (z < - Z.of_nat (length l))%Z -> QueryMatcher.py_index l z = None).
  { intros l z Hz. unfold QueryMatcher.py_index.
    destruct (Z.leb_spec 0 z); [lia|].
    destruct (Z.leb_spec (- Z.of_nat (length l)) z); [lia | reflexivity]. }
  assert (Body : forall z,
            QueryMatcher.resolve_chip_selection (QueryMatcher.JInt z) chip_clicks
            = QueryMatcher.IndexError <->
            exists l, chip_clicks = Some l /\ l <> [] /\
                      (z < - Z.of_nat (length l))%Z).
  { intros z. unfold QueryMatcher.resolve_chip_selection.
    cbn [QueryMatcher.as_int].
    destruct chip_clicks as [[|c0 rest]|].
    - split; [discriminate | intros (l & [= <-] & Hl & _); contradiction].
    - destruct (Z.leb_spec (Z.of_nat (length (c0 :: rest))) z) as [Hge|Hlt].
      { split; [discriminate|]. intros (l & [= <-] & _ & Hz). lia. }
      destruct (Z.ltb_spec z (- Z.of_nat (length (c0 :: rest)))) as [Hlo|Hlo].
      + rewrite (Below _ _ Hlo). split; [intros _ | reflexivity].
        exists (c0 :: rest). repeat split; [discriminate | exact Hlo].
      + destruct (In_range (c0 :: rest) z) as [n ->]; [lia|].
        split; [destruct (n <=? 0)%Z, (z =? 0)%Z; discriminate|].
        intros (l & [= <-] & _ & Hz). lia.
    - split; [discriminate | intros (l & E & _); discriminate]. }
  split.
  - destruct idx as [z|b|].
    + rewrite Body. split.
      * intros (l & E & Hl & Hz). exists z, l. auto.
      * intros (z' & l & [= <-] & E & Hl & Hz). exists l. auto.
    + change (QueryMatcher.resolve_chip_selection (QueryMatcher.JBool b)
                chip_clicks)
        with (QueryMatcher.resolve_chip_selection
                (QueryMatcher.JInt (if b then 1 else 0)) chip_clicks).
      rewrite Body. split.
      * intros (l & E & Hl & Hz). destruct b; lia.
      * intros (z' & l & E & _). discriminate.
    + split; [discriminate | intros (z' & l & E & _); discriminate].
  - intros z l -> -> Hz. unfold QueryMatcher.resolve_chip_selection.
    cbn [QueryMatcher.as_int].
    destruct l as [|c0 rest]; [reflexivity|].
    destruct (Z.leb_spec (Z.of_nat (length (c0 :: rest))) z); [lia|].
    destruct (In_range (c0 :: rest) z) as [n ->]; [lia|].
    destruct (n <=? 0)%Z; [reflexivity|].
    destruct (Z.eqb_spec z 0); [lia | reflexivity].
Qed.

(** ** Suggestion chips against the decision on free text *)

Lemma SUGGESTIONS_lookup (i : Z) (s : str) :
  Pages.SUGGESTIONS !! i = Some s ->
  (i = 0%Z /\ s = reference_phrase) \/
  (i = 1%Z /\ s = lit "Which signals predict rotor issues next 7 days?") \/
  (i = 2%Z /\ s = lit "Top contributors to outage risk right now?") \/
  (i = 3%Z /\ s = lit "How many MB failures in the next 2 months?").
Proof.
  unfold Pages.SUGGESTIONS. cbn [list_to_map foldr curry fst snd].
  intros H.
  repeat (apply lookup_insert_Some in H as [[<- <-] | [_ H]]; [tauto|]).
  rewrite lookup_empty in H. discriminate.
Qed.

(** X8.  Filling the input from a suggestion chip and submitting it leads
    to Sentinel for suggestion 0 only; an index without a suggestion fills
    nothing. *)
Theorem suggestion_submitted (unicode_lower : N -> list N) (i : Z) (s : str)
    (chip_clicks : option (list Z)) :
  Pages.fill_from_qchip (Some i) = QueryMatcher.set_to s ->
  (QueryMatcher.go_to_sentinel unicode_lower (Some QueryMatcher.qa_submit)
     (Some 1%Z) chip_clicks (Some s)
   = QueryMatcher.Return QueryMatcher.SENTINEL_REDIRECT <-> i = 0%Z) /\
  (0 <= i < 4)%Z.
Proof.
  unfold Pages.fill_from_qchip.
  destruct (Pages.SUGGESTIONS !! i) as [s'|] eqn:L; [|discriminate].
  intros [= ->].
  destruct (SUGGESTIONS_lookup i s L) as [[-> ->] | [[-> ->] | [[-> ->] | [-> ->]]]];
    (split; [|lia]).
  - split; [reflexivity | intros _; vm_compute; reflexivity].
  - split; [vm_compute; discriminate | discriminate].
  - split; [vm_compute; discriminate | discriminate].
  - split; [vm_compute; discriminate | discriminate].
Qed.

Lemma suggestion_submitted_witness :
  Pages.fill_from_qchip (Some 0%Z)
  = QueryMatcher.set_to reference_phrase /\
  QueryMatcher.go_to_sentinel (fun c => [c]) (Some QueryMatcher.qa_submit)
    (Some 1%Z) (Some [0; 0; 0; 0]%Z) (Some reference_phrase)
  = QueryMatcher.Return QueryMatcher.SENTINEL_REDIRECT.
Proof.
  split; [reflexivity|].
  apply (suggestion_submitted (fun c => [c]) 0 reference_phrase
           (Some [0; 0; 0; 0]%Z) eq_refl).
  reflexivity.
Defined.

(** ** Scenario chips and stages *)

Lemma SCENARIOS_lookup (k : string) (v : str) :
  Pages.SCENARIOS !! k = Some v ->
  (k = "wind" /\ v = lit "Wind turbines (Sentinel)") \/
  (k = "grid" /\ v = lit "Data center supply-demand (Grid)") \/
  (k = "inv" /\ v = lit "Inventory management (Horizon)") \/
  (k = "infl" /\ v = lit "Inflation (Optima)").
Proof.
  unfold Pages.SCENARIOS. cbn [list_to_map foldr curry fst snd].
  intros H.
  repeat (apply lookup_insert_Some in H as [[<- <-] | [_ H]]; [tauto|]).
  rewrite lookup_empty in H. discriminate.
Qed.

(** X9.  Clicking the chip of a scenario puts the text of that scenario in
    the search input, and pressing "go" on the selection stage then leads
    to loading for the wind scenario only; the chip of an unknown scenario
    leaves the text of the input as it is. *)
Theorem scenario_chip_then_go (unicode_lower : N -> list N) (k : string)
    (current_value : option str) (s : QueryMatcher.screen) :
  QueryMatcher.stage_data s = QueryMatcher.select ->
  let chip := {| Pages.id_type := "chip"; Pages.id_index := k;
                 Pages.has_n_clicks := true |} in
  match Pages.SCENARIOS !! k with
  | Some v =>
      Pages.update_search_from_chip (Some chip) current_value
      = QueryMatcher.set_to (Some v) /\
      (QueryMatcher.stage_data
         (QueryMatcher.after_start_flow unicode_lower (Some QueryMatcher.go)
            (Some v) s) = QueryMatcher.loading <-> k = "wind")
  | None =>
      Pages.update_search_from_chip (Some chip) current_value
      = QueryMatcher.set_to current_value
  end.
Proof.
  intros Hs chip. subst chip.
  assert (E : Pages.update_search_from_chip
                (Some {| Pages.id_type := "chip"; Pages.id_index := k;
                         Pages.has_n_clicks := true |}) current_value
              = QueryMatcher.set_to
                  (match Pages.SCENARIOS !! k with
                   | Some v => Some v
                   | None => current_value
                   end)) by reflexivity.
  rewrite E. clear E.
  destruct (Pages.SCENARIOS !! k) as [v|] eqn:L; [|reflexivity].
  split; [reflexivity|].
  destruct s as [st ld er]. cbn in Hs. subst st.
  destruct (SCENARIOS_lookup k v L) as [[-> ->] | [[-> ->] | [[-> ->] | [-> ->]]]].
  - split; [reflexivity | intros _; vm_compute; reflexivity].
  - split; [vm_compute; discriminate | discriminate].
  - split; [vm_compute; discriminate | discriminate].
  - split; [vm_compute; discriminate | discriminate].
Qed.

Lemma scenario_chip_then_go_witness :
  QueryMatcher.stage_data fresh_screen = QueryMatcher.select /\
  Pages.update_search_from_chip
    (Some {| Pages.id_type := "chip"; Pages.id_index := "wind";
             Pages.has_n_clicks := true |}) None
  = QueryMatcher.set_to (Some (lit "Wind turbines (Sentinel)")) /\
  (QueryMatcher.stage_data
     (QueryMatcher.after_start_flow (fun c => [c]) (Some QueryMatcher.go)
        (Some (lit "Wind turbines (Sentinel)")) fresh_screen)
   = QueryMatcher.loading <-> "wind" = "wind").
Proof.
  split; [reflexivity|].
  exact (scenario_chip_then_go (fun c => [c]) "wind" None fresh_screen eq_refl).
Defined.

(** X10.  The graph stage is entered from the loading stage only, and by
    [auto_transition]: [start_flow] never writes it.  The loading stage is
    entered only by "go" with a text that, lower-cased, contains "wind". *)
Theorem stage_entered_from (unicode_lower : N -> list N)
    (s s' : QueryMatcher.screen) :
  Pages.stage_step unicode_lower s s' ->
  (QueryMatcher.stage_data s' = QueryMatcher.kg ->
   QueryMatcher.stage_data s = QueryMatcher.kg \/
   (QueryMatcher.stage_data s = QueryMatcher.loading /\
    s' = Pages.after_auto_transition s)) /\
  (QueryMatcher.stage_data s' = QueryMatcher.loading ->
   QueryMatcher.stage_data s = QueryMatcher.loading \/
   exists t, s' = QueryMatcher.after_start_flow unicode_lower
                    (Some QueryMatcher.go) (Some t) s /\
             occurs (lit "wind") (lower unicode_lower t)).
Proof.
  intros [triggered search_value s0 | s0].
  - destruct triggered as [[| |]|];
      [| cbn; split; [discriminate | discriminate]
       | cbn; split; intros H; left; exact H
       | cbn; split; intros H; left; exact H].
    destruct (truthy search_value) eqn:T.
    + destruct (contains (lit "wind")
                  (lower unicode_lower (or_empty search_value))) eqn:W.
      * destruct search_value as [t|]; [|discriminate].
        pose proof (start_flow_wind unicode_lower (Some t) s0 T W) as E.
        rewrite E. cbn [QueryMatcher.stage_data].
        split; [discriminate|]. intros _. right.
        exists t. split; [symmetry; exact E|].
        rewrite or_empty_Some in W. apply contains_spec, W.
      * rewrite (start_flow_other unicode_lower search_value s0 T W).
        cbn [QueryMatcher.stage_data]. split; intros H; left; exact H.
    + rewrite (start_flow_empty unicode_lower search_value s0 T).
      cbn [QueryMatcher.stage_data]. split; intros H; left; exact H.
  - assert (E : forall st : QueryMatcher.stage,
              QueryMatcher.stage_data s0 = st ->
              QueryMatcher.stage_data (Pages.after_auto_transition s0)
              = match st with
                | QueryMatcher.loading => QueryMatcher.kg
                | _ => st
                end).
    { intros st <-. unfold Pages.after_auto_transition, Pages.auto_transition.
      destruct (QueryMatcher.stage_data s0); reflexivity. }
    destruct (QueryMatcher.stage_data s0) eqn:Hs0;
      rewrite (E _ eq_refl); split; try discriminate; intros _.
    + right. split; reflexivity.
    + left. reflexivity.
Qed.

Lemma stage_entered_from_witness :
  Pages.stage_step (fun c => [c])
    {| QueryMatcher.stage_data := QueryMatcher.loading;
       QueryMatcher.loader_status := QueryMatcher.text "";
       QueryMatcher.error_display := QueryMatcher.text "" |}
    {| QueryMatcher.stage_data := QueryMatcher.kg;
       QueryMatcher.loader_status := QueryMatcher.text "";
       QueryMatcher.error_display := QueryMatcher.text "" |} /\
  (QueryMatcher.kg = QueryMatcher.kg ->
   QueryMatcher.loading = QueryMatcher.kg \/
   (QueryMatcher.loading = QueryMatcher.loading /\
    {| QueryMatcher.stage_data := QueryMatcher.kg;
       QueryMatcher.loader_status := QueryMatcher.text "";
       QueryMatcher.error_display := QueryMatcher.text "" |}
    = Pages.after_auto_transition
        {| QueryMatcher.stage_data := QueryMatcher.loading;
           QueryMatcher.loader_status := QueryMatcher.text "";
           QueryMatcher.error_display := QueryMatcher.text "" |})).
Proof.
  assert (H : Pages.stage_step (fun c => [c])
                {| QueryMatcher.stage_data := QueryMatcher.loading;
                   QueryMatcher.loader_status := QueryMatcher.text "";
                   QueryMatcher.error_display := QueryMatcher.text "" |}
                {| QueryMatcher.stage_data := QueryMatcher.kg;
                   QueryMatcher.loader_status := QueryMatcher.text "";
                   QueryMatcher.error_display := QueryMatcher.text "" |})
    by (exact (Pages.step_auto_transition (fun c => [c])
                 {| QueryMatcher.stage_data := QueryMatcher.loading;
                    QueryMatcher.loader_status := QueryMatcher.text "";
                    QueryMatcher.error_display := QueryMatcher.text "" |})).
  split; [exact H|].
  exact (proj1 (stage_entered_from (fun c => [c]) _ _ H)).
Defined.

(** X11.  Whatever the stage store holds, [swap_stage] leaves exactly one
    of the three screens on the page: the selection screen for "select",
    the loading screen for "loading", the graph screen for anything
    else. *)
Theorem swap_stage_one_screen (stage : string) :
  let '(sel, load, graph) := Pages.swap_stage stage in
  (Pages.displayed sel = true <-> stage = "select") /\
  (Pages.displayed load = true <-> stage = "loading") /\
  (Pages.displayed graph = true <-> stage <> "select" /\ stage <> "loading").
Proof.
  unfold Pages.swap_stage.
  destruct (String.eqb_spec stage "select") as [->|Hs].
  - repeat split; try reflexivity; try discriminate.
    intros [H _]. contradiction.
  - destruct (String.eqb_spec stage "loading") as [->|Hl].
    + repeat split; try reflexivity; try discriminate.
      intros [_ H]. contradiction.
    + repeat split; try reflexivity; try discriminate; try assumption;
        intros H; contradiction.
Qed.

(** ** Rotation *)

(** X12.  [rotate] always gives 0, 1 or 2, also for a negative count and
    for no count at all, and has period 3. *)
Theorem rotate_range (n : option Z) :
  (0 <= Pages.rotate n < 3)%Z /\
  Pages.rotate None = 0%Z /\
  (forall z, Pages.rotate (Some (z + 3)%Z) = Pages.rotate (Some z)).
Proof.
  unfold Pages.rotate. split; [|split].
  - apply Z.mod_pos_bound. reflexivity.
  - reflexivity.
  - intros z. replace (z + 3)%Z with (z + 1 * 3)%Z by lia.
    apply Z_mod_plus_full.
Qed.

Section PreviewFacts.

Import Pages.

Variable get_asset_url : string -> string.

Lemma getitem_images (i : Z) :
  (0 <= i < 3)%Z -> exists path, getitem images i = Some path /\
                                 images !! Z.to_nat i = Some path.
Proof.
  intros Hi. unfold getitem. destruct (Z.leb_spec 0 i); [|lia].
  destruct (lookup_lt_is_Some_2 images (Z.to_nat i)) as [p Hp];
    [simpl; lia|].
  exists p. split; exact Hp.
Qed.

Lemma new_index_fired (t : preview_input) (current_index : option Z) :
  (0 <= new_index (Some t) current_index < 3)%Z.
Proof.
  unfold new_index. change (Z.of_nat (length images)) with 3%Z.
  destruct t; apply Z.mod_pos_bound; reflexivity.
Qed.

End PreviewFacts.

(** X13.  When an input fired, the preview callback always returns: the
    new index is 0, 1 or 2 whatever index was stored (none, negative or
    too large), and the address is that of the image at the new index. *)
Theorem preview_fired_returns (get_asset_url : string -> string)
    (t : Pages.preview_input) (current_index : option Z) :
  exists i path,
    Pages.rotate_and_navigate_preview get_asset_url (Some t) current_index
    = QueryMatcher.Return (i, get_asset_url path) /\
    (0 <= i < 3)%Z /\
    Pages.images !! Z.to_nat i = Some path.
Proof.
  pose proof (new_index_fired t current_index) as Hi.
  destruct (getitem_images _ Hi) as (path & Hg & Hl).
  exists (Pages.new_index (Some t) current_index), path.
  unfold Pages.rotate_and_navigate_preview. rewrite Hg. auto.
Qed.

(** X14.  When no input fired, the stored index is used as it is: the
    callback fails with [IndexError] exactly when that index is below -3 or
    above 2, and returns the stored index otherwise. *)
Theorem preview_not_fired (get_asset_url : string -> string)
    (current_index : option Z) :
  (Pages.rotate_and_navigate_preview get_asset_url None current_index
   = QueryMatcher.IndexError <->
   exists i, current_index = Some i /\ (i < -3 \/ 3 <= i)%Z) /\
  (forall r, Pages.rotate_and_navigate_preview get_asset_url None current_index
             = QueryMatcher.Return r ->
             fst r = match current_index with Some i => i | None => 0%Z end).
Proof.
  unfold Pages.rotate_and_navigate_preview, Pages.new_index.
  set (i := match current_index with Some i => i | None => 0%Z end).
  assert (Hg : Pages.getitem Pages.images i = None <-> (i < -3 \/ 3 <= i)%Z).
  { unfold Pages.getitem. change (Z.of_nat (length Pages.images)) with 3%Z.
    change (- (3))%Z with (-3)%Z.
    destruct (Z.leb_spec 0 i).
    - rewrite lookup_ge_None. simpl. lia.
    - destruct (Z.leb_spec (-3) i).
      + split; [|lia]. intros H'. apply lookup_ge_None in H'. simpl in H'. lia.
      + split; [lia | reflexivity]. }
  split.
  - destruct (Pages.getitem Pages.images i) as [p|] eqn:G.
    + split; [discriminate|]. intros (j & E & Hj).
      assert (i = j) as -> by (subst i; rewrite E; reflexivity).
      apply Hg in Hj. discriminate.
    + split; [intros _ | reflexivity].
      destruct current_index as [j|]; [exists j; split; [reflexivity|]|].
      * apply Hg. reflexivity.
      * subst i. assert (0 < -3 \/ 3 <= 0)%Z by (apply Hg; reflexivity). lia.
  - intros r. destruct (Pages.getitem Pages.images i); [|discriminate].
    intros [= <-]. reflexivity.
Qed.

(** X15.  On the index, the previous button undoes the next button and
    three presses of the next button come back to the same image; the
    timer acts as the next button. *)
Theorem preview_next_prev (i : Z) (current_index : option Z) :
  Pages.new_index (Some Pages.prev_img_btn)
    (Some (Pages.new_index (Some Pages.next_img_btn) (Some i))) = (i mod 3)%Z /\
  Pages.new_index (Some Pages.next_img_btn)
    (Some (Pages.new_index (Some Pages.prev_img_btn) (Some i))) = (i mod 3)%Z /\
  Pages.new_index (Some Pages.next_img_btn)
    (Some (Pages.new_index (Some Pages.next_img_btn)
       (Some (Pages.new_index (Some Pages.next_img_btn) (Some i)))))
  = (i mod 3)%Z /\
  Pages.new_index (Some Pages.other_input) current_index
  = Pages.new_index (Some Pages.next_img_btn) current_index.
Proof.
  unfold Pages.new_index. change (Z.of_nat (length Pages.images)) with 3%Z.
  repeat split; Z.div_mod_to_equations; lia.
Qed.

(** ** GraphBuilder: the emitted nodes, exactly *)

Section NodeListFacts.

Import GraphBuilder GraphViews.

Lemma NoDup_selected {A : Type} (a b c d e : list A) (p s q : bool) :
  List.NoDup (a ++ b ++ c ++ d ++ e) ->
  List.NoDup (a ++ e ++ (if p then b else []) ++ (if s then c else [])
                ++ (if q then d else [])).
Proof.
  rewrite <- !NoDup_ListNoDup. intros H.
  set (x := (if p then b else []) ++ (if s then c else [])
              ++ (if q then d else [])).
  assert (Hx : x ++ e `sublist_of` b ++ c ++ d ++ e).
  { unfold x. rewrite <- !List.app_assoc.
    repeat apply sublist_app; try reflexivity;
      destruct p, s, q; try reflexivity; apply sublist_nil_l. }
  assert (Hs : a ++ x ++ e `sublist_of` a ++ b ++ c ++ d ++ e)
    by (apply sublist_app; [reflexivity | exact Hx]).
  apply (sublist_NoDup _ _ H) in Hs.
  eapply NoDup_Permutation_proper; [|exact Hs].
  apply Permutation_app_head, Permutation_app_comm.
Qed.

Lemma shown_ids_NoDup (layers : option (list string)) (g : catalog) :
  well_formed g -> List.NoDup (List.map id (shown layers g)).
Proof.
  intros (_ & _ & _ & _ & _ & Hnd). unfold all_nodes in Hnd. unfold shown.
  rewrite !List.map_app in *.
  pose proof (NoDup_selected _ _ _ _ _ (enabled layers "physics")
                (enabled layers "statistical") (enabled layers "anomaly") Hnd)
    as H.
  destruct (enabled layers "physics"), (enabled layers "statistical"),
    (enabled layers "anomaly"); exact H.
Qed.

Lemma update_elements_fst (uniform : nat -> float) (layers : option (list string))
    (g : catalog) :
  fst (update_elements uniform layers g)
  = as_nodes (out_nodes (fst (update_elements uniform layers g)))
    ++ List.map edge_element
         (out_edges (fst (update_elements uniform layers g))).
Proof.
  unfold update_elements. cbn [fst].
  rewrite out_edges_elements, out_nodes_elements. reflexivity.
Qed.

End NodeListFacts.

(** X16.  For a well-formed catalog the result is the list of the node
    elements followed by the edge elements; the nodes are the raw features,
    the outcomes, then the physics, statistical and anomaly features whose
    category is among the toggles, in that order, each with the colours of
    its category; and no id occurs twice among them. *)
Theorem emitted_nodes_exact (uniform : nat -> float)
    (layers : option (list string)) (g : GraphBuilder.catalog) :
  GraphBuilder.well_formed g ->
  let out := fst (GraphBuilder.update_elements uniform layers g) in
  out = GraphBuilder.as_nodes
          (List.map GraphBuilder.styled (GraphBuilder.shown layers g))
        ++ List.map GraphBuilder.edge_element (GraphBuilder.out_edges out) /\
  List.NoDup (List.map GraphBuilder.id (GraphBuilder.out_nodes out)).
Proof.
  intros Hwf out. subst out. split.
  - rewrite <- (update_elements_out_nodes uniform layers g Hwf).
    apply update_elements_fst.
  - rewrite update_elements_nodes_ids. apply shown_ids_NoDup, Hwf.
Qed.

Lemma emitted_nodes_exact_witness :
  GraphBuilder.well_formed GraphBuilder.startup /\
  List.map GraphBuilder.id
    (GraphBuilder.out_nodes
       (fst (GraphBuilder.update_elements (fun _ => 1%float) (Some ["anomaly"])
               GraphBuilder.startup)))
  = ["active_power"; "main_bearing_temperature"; "rotor_speed";
     "temperature_reading"; "anemometer_reading"; "is_approaching_outage";
     "is_within_outage"; "failure_risk"; "maintenance_required";
     "main_bearing_below_ambient_flag"; "volatility_flag"; "is_constant"] /\
  List.NoDup
    (List.map GraphBuilder.id
       (GraphBuilder.out_nodes
          (fst (GraphBuilder.update_elements (fun _ => 1%float) (Some ["anomaly"])
                  GraphBuilder.startup)))).
Proof.
  split; [exact startup_well_formed|]. split; [reflexivity|].
  apply (emitted_nodes_exact (fun _ => 1%float) (Some ["anomaly"])
           GraphBuilder.startup startup_well_formed).
Defined.

(** X17.  Calling twice with the same toggles returns the same nodes the
    second time, and leaves the five feature tables as the first call left
    them, whatever the draws. *)
Theorem second_call_same_nodes (uniform uniform' : nat -> float)
    (layers : option (list string)) (g : GraphBuilder.catalog) :
  let first := GraphBuilder.update_elements uniform layers g in
  let second := GraphBuilder.update_elements uniform' layers (snd first) in
  GraphBuilder.out_nodes (fst second) = GraphBuilder.out_nodes (fst first) /\
  GraphViews.node_tables (snd second) = GraphViews.node_tables (snd first).
Proof.
  assert (P : forall bg bd l,
            List.map (GraphBuilder.paint bg bd)
              (List.map (GraphBuilder.paint bg bd) l)
            = List.map (GraphBuilder.paint bg bd) l).
  { intros bg bd l. rewrite List.map_map. reflexivity. }
  intros first second. subst first second.
  unfold GraphBuilder.update_elements, GraphViews.node_tables.
  cbn [fst snd GraphBuilder.RAW_FEATURES GraphBuilder.PHYSICS_FEATURES
         GraphBuilder.STATISTICAL_FEATURES GraphBuilder.ANOMALY_FEATURES
         GraphBuilder.OUTCOMES].
  rewrite !out_nodes_elements.
  repeat case_bool_decide; rewrite ?P; split; reflexivity.
Qed.

(** ** GraphBuilder: the weight loop, edge by edge *)

Section VaryMore.

Import GraphBuilder GraphViews.

Variable uniform : nat -> float.
Variable P : gset string.

Lemma kept_count_cons (x : edge) (es : list edge) :
  kept_count P (x :: es)
  = ((if kept P x then 1 else 0) + kept_count P es)%nat.
Proof. unfold kept_count. simpl. destruct (kept P x); reflexivity. Qed.

Lemma vary_length (k : nat) (es : list edge) :
  length (vary uniform P k es) = length es.
Proof.
  revert k. induction es as [|x es IH]; intros k; simpl; [reflexivity|].
  destruct (kept P x); simpl; rewrite IH; reflexivity.
Qed.

Lemma vary_lookup (k i : nat) (es : list edge) (e : edge) :
  es !! i = Some e ->
  vary uniform P k es !! i
  = Some (varied uniform P (k + kept_count P (take i es)) e).
Proof.
  revert k i. induction es as [|x es IH]; intros k i H; [discriminate|].
  destruct i as [|i].
  - injection H as ->. cbn [take]. unfold kept_count at 1. simpl.
    rewrite Nat.add_0_r. unfold varied. destruct (kept P e); reflexivity.
  - cbn [take]. rewrite kept_count_cons. cbn [vary].
    cbn [lookup list_lookup] in H.
    destruct (kept P x); cbn [lookup list_lookup]; rewrite (IH _ _ H);
      do 2 f_equal; lia.
Qed.

Lemma filter_vary (k : nat) (es : list edge) :
  List.filter (kept P) (vary uniform P k es)
  = imap (fun j e => set_weight (round3 (PrimFloat.mul (get_weight e) (uniform (k + j)))) e)
      (List.filter (kept P) es).
Proof.
  revert k. induction es as [|x es IH]; intros k; simpl; [reflexivity|].
  destruct (kept P x) eqn:K; simpl.
  - rewrite kept_set_weight, K, IH. cbn [imap]. rewrite Nat.add_0_r.
    f_equal. apply imap_ext. intros j e _. unfold compose.
    replace (k + S j)%nat with (S k + j)%nat by lia. reflexivity.
  - rewrite K. apply IH.
Qed.

End VaryMore.

(** X18.  After a call, the edge at each position of the edge table is
    where it was: untouched if one of its ends is not shown, and otherwise
    with the same ends and the weight [round(w * draw, 3)], the draw being
    the one numbered by the count of shown edges before it.  The table
    keeps its length. *)
Theorem edge_table_after_call (uniform : nat -> float)
    (layers : option (list string)) (g : GraphBuilder.catalog)
    (i : nat) (e : GraphBuilder.edge) :
  GraphBuilder.BASE_EDGES g !! i = Some e ->
  let g' := snd (GraphBuilder.update_elements uniform layers g) in
  let P := GraphBuilder.present layers g in
  let j := GraphViews.kept_count P (take i (GraphBuilder.BASE_EDGES g)) in
  (GraphBuilder.kept P e = false -> GraphBuilder.BASE_EDGES g' !! i = Some e) /\
  (GraphBuilder.kept P e = true ->
   GraphBuilder.BASE_EDGES g' !! i
   = Some {| GraphBuilder.source := GraphBuilder.source e;
             GraphBuilder.target := GraphBuilder.target e;
             GraphBuilder.weight :=
               Some (GraphBuilder.round3
                       (PrimFloat.mul (GraphBuilder.get_weight e)
                          (uniform j))) |}) /\
  length (GraphBuilder.BASE_EDGES g') = length (GraphBuilder.BASE_EDGES g).
Proof.
  intros H g' P j. subst g' P j.
  destruct (update_elements_edges uniform layers g) as [_ ->].
  rewrite (vary_lookup uniform _ 0 i _ e H), vary_length.
  unfold GraphViews.varied. cbn [Nat.add].
  split; [|split]; [intros -> | intros -> |]; reflexivity.
Qed.

Lemma edge_table_after_call_witness :
  GraphBuilder.BASE_EDGES GraphBuilder.startup !! 13%nat
  = Some (GraphBuilder.link "active_power" "active_power_moment" 0.9%float) /\
  GraphBuilder.BASE_EDGES
    (snd (GraphBuilder.update_elements (fun _ => 1.08%float) (Some ["physics"])
            GraphBuilder.startup)) !! 13%nat
  = Some (GraphBuilder.link "active_power" "active_power_moment" 0.9%float).
Proof.
  split; [reflexivity|].
  apply (edge_table_after_call (fun _ => 1.08%float) (Some ["physics"])
           GraphBuilder.startup 13
           (GraphBuilder.link "active_power" "active_power_moment" 0.9%float)
           eq_refl).
  reflexivity.
Defined.

(** X19.  The emitted edges are the shown edges of the table in table
    order, the one at place [j] among them with its weight replaced by
    [round(w * draw_j, 3)]: every emitted edge uses one draw, in order. *)
Theorem emitted_edges_draws (uniform : nat -> float)
    (layers : option (list string)) (g : GraphBuilder.catalog) :
  GraphBuilder.out_edges (fst (GraphBuilder.update_elements uniform layers g))
  = imap (fun j e =>
            GraphBuilder.set_weight
              (GraphBuilder.round3
                 (PrimFloat.mul (GraphBuilder.get_weight e) (uniform j))) e)
      (List.filter (GraphBuilder.kept (GraphBuilder.present layers g))
         (GraphBuilder.BASE_EDGES g)).
Proof.
  destruct (update_elements_edges uniform layers g) as [-> _].
  apply (filter_vary uniform _ 0).
Qed.

(** ** GraphBuilder: what survives any number of calls *)

Section RunFacts.

Import GraphBuilder GraphViews.

(** A property that every call keeps holds after any sequence of calls. *)
Lemma run_invariant (I : catalog -> Prop) :
  (forall uniform layers g, I g -> I (snd (update_elements uniform layers g))) ->
  forall calls g, I g -> I (snd (run calls g)).
Proof.
  intros Hstep calls. induction calls as [|[uniform layers] calls IH];
    intros g Hg; [exact Hg|].
  cbn [run].
  pose proof (Hstep uniform layers g Hg) as H.
  destruct (update_elements uniform layers g) as [els g'].
  specialize (IH g' H).
  destruct (run calls g') as [rest g'']. exact IH.
Qed.

Lemma tidy_paint (c bg bd : string) (l : list node) :
  style c = (bg, bd) ->
  List.Forall (fun n => classes n = c) l ->
  List.Forall tidy (List.map (paint bg bd) l).
Proof.
  intros Hs Hl. apply List.Forall_forall. intros n Hn.
  apply List.in_map_iff in Hn as (m & <- & Hm).
  rewrite List.Forall_forall in Hl. right.
  change (classes (paint bg bd m)) with (classes m).
  rewrite (Hl m Hm), Hs. split; reflexivity.
Qed.

Lemma update_elements_tidy (uniform : nat -> float) (layers : option (list string))
    (g : catalog) :
  well_formed g /\ List.Forall tidy (all_nodes g) ->
  well_formed (snd (update_elements uniform layers g)) /\
  List.Forall tidy (all_nodes (snd (update_elements uniform layers g))).
Proof.
  intros [Hwf Ht]. split; [apply update_elements_well_formed, Hwf|].
  destruct Hwf as (Hr & Hp & Hs & Ha & Ho & _).
  unfold all_nodes in *.
  destruct (update_elements_tables uniform layers g)
    as (E1 & E2 & E3 & E4 & E5).
  rewrite E1, E2, E3, E4, E5. clear E1 E2 E3 E4 E5.
  rewrite !List.Forall_app in Ht. destruct Ht as (Tr & Tp & Ts & Ta & To).
  rewrite !List.Forall_app.
  repeat split.
  - apply (tidy_paint "raw"); [reflexivity | exact Hr].
  - destruct (enabled layers "physics"); [|exact Tp].
    apply (tidy_paint "physics"); [reflexivity | exact Hp].
  - destruct (enabled layers "statistical"); [|exact Ts].
    apply (tidy_paint "statistical"); [reflexivity | exact Hs].
  - destruct (enabled layers "anomaly"); [|exact Ta].
    apply (tidy_paint "anomaly"); [reflexivity | exact Ha].
  - apply (tidy_paint "outcome"); [reflexivity | exact Ho].
Qed.

Lemma startup_tidy : List.Forall tidy (all_nodes startup).
Proof.
  apply List.Forall_forall. intros n Hn. left.
  unfold all_nodes, startup in Hn. cbn in Hn.
  repeat (destruct Hn as [<- | Hn]; [split; reflexivity|]).
  contradiction.
Qed.

Lemma map_id_key (l l' : list node) :
  List.map key l' = List.map key l -> List.map id l' = List.map id l.
Proof.
  intros E.
  assert (Ef : forall k : list node,
            List.map id k = List.map (fun p => fst (fst p)) (List.map key k))
    by (intros k; rewrite List.map_map; reflexivity).
  rewrite (Ef l), (Ef l'), E. reflexivity.
Qed.

Lemma update_elements_frame_eq (uniform : nat -> float)
    (layers : option (list string)) (g : catalog) :
  frame (snd (update_elements uniform layers g)) = frame g.
Proof.
  unfold frame, node_tables.
  destruct (update_elements_keys uniform layers g)
    as (Er & Ep & Es & Ea & Eo).
  destruct (update_elements_edges uniform layers g) as [_ Ee].
  rewrite Ee, vary_endpoints. cbn [List.map].
  rewrite (map_id_key _ _ Er), (map_id_key _ _ Ep), (map_id_key _ _ Es),
    (map_id_key _ _ Ea), (map_id_key _ _ Eo).
  reflexivity.
Qed.

Lemma run_frame (calls : list ((nat -> float) * option (list string)))
    (g : catalog) :
  frame (snd (run calls g)) = frame g.
Proof.
  apply (run_invariant (fun g' => frame g' = frame g)); [|reflexivity].
  intros uniform layers g' H. rewrite update_elements_frame_eq. exact H.
Qed.

Lemma frame_shown (layers : option (list string)) (g g' : catalog) :
  frame g' = frame g ->
  List.map id (shown layers g') = List.map id (shown layers g).
Proof.
  unfold frame, node_tables, shown. cbn [List.map].
  intros [= Er Ep Es Ea Eo _].
  destruct (enabled layers "physics"), (enabled layers "statistical"),
    (enabled layers "anomaly");
    rewrite !List.map_app; cbn [List.map];
    rewrite ?Er, ?Ep, ?Es, ?Ea, ?Eo; reflexivity.
Qed.

(** The ends of the edges that pass the filter, read off the ends alone. *)
Lemma filter_kept_endpoints (P : gset string) (es es' : list edge) :
  List.map endpoints es' = List.map endpoints es ->
  List.map endpoints (List.filter (kept P) es')
  = List.map endpoints (List.filter (kept P) es).
Proof.
  revert es. induction es' as [|x' es' IH]; intros [|x es] E;
    try discriminate; [reflexivity|].
  cbn [List.map] in E.
  assert (Ex : endpoints x' = endpoints x) by congruence.
  assert (E' : List.map endpoints es' = List.map endpoints es) by congruence.
  simpl. rewrite (kept_endpoints P x x' Ex).
  destruct (kept P x); simpl; rewrite ?Ex, (IH _ E'); reflexivity.
Qed.

End RunFacts.

(** X21.  However many calls were made since the module was loaded, and
    with whatever toggles, every feature dict of the catalog carries either
    no colour or the colour pair of its own category, never that of another
    one. *)
Theorem colours_stay_tidy
    (calls : list ((nat -> float) * option (list string))) :
  List.Forall GraphViews.tidy
    (GraphBuilder.all_nodes (snd (GraphBuilder.run calls GraphBuilder.startup))).
Proof.
  apply (run_invariant
           (fun g => GraphBuilder.well_formed g /\
                     List.Forall GraphViews.tidy (GraphBuilder.all_nodes g))).
  - intros uniform layers g. apply update_elements_tidy.
  - split; [exact startup_well_formed | exact startup_tidy].
Qed.

Lemma run_emitted_shape
    (calls : list ((nat -> float) * option (list string)))
    (uniform uniform' : nat -> float) (layers : option (list string))
    (g : GraphBuilder.catalog) :
  List.map GraphBuilder.id
    (GraphBuilder.out_nodes
       (fst (GraphBuilder.update_elements uniform layers
               (snd (GraphBuilder.run calls g)))))
  = List.map GraphBuilder.id
      (GraphBuilder.out_nodes
         (fst (GraphBuilder.update_elements uniform' layers g))) /\
  List.map GraphBuilder.endpoints
    (GraphBuilder.out_edges
       (fst (GraphBuilder.update_elements uniform layers
               (snd (GraphBuilder.run calls g)))))
  = List.map GraphBuilder.endpoints
      (GraphBuilder.out_edges
         (fst (GraphBuilder.update_elements uniform' layers g))).
Proof.
  pose proof (run_frame calls g) as F.
  pose proof (frame_shown layers _ _ F) as S.
  rewrite !update_elements_nodes_ids. split; [exact S|].
  destruct (update_elements_edges uniform layers
              (snd (GraphBuilder.run calls g))) as [-> _].
  destruct (update_elements_edges uniform' layers g) as [-> _].
  unfold GraphBuilder.present. rewrite S.
  apply filter_kept_endpoints. rewrite !vary_endpoints.
  exact (f_equal snd F).
Qed.

(** X22.  Which nodes and which edges are emitted depends on the toggles
    only, not on the calls made before: after any sequence of calls the ids
    of the emitted nodes and the ends of the emitted edges are those of a
    first call with the same toggles. *)
Theorem emitted_shape_history_free
    (calls : list ((nat -> float) * option (list string)))
    (uniform uniform' : nat -> float) (layers : option (list string))
    (g : GraphBuilder.catalog) :
  let later := fst (GraphBuilder.update_elements uniform layers
                      (snd (GraphBuilder.run calls g))) in
  let first := fst (GraphBuilder.update_elements uniform' layers g) in
  List.map GraphBuilder.id (GraphBuilder.out_nodes later)
  = List.map GraphBuilder.id (GraphBuilder.out_nodes first) /\
  List.map GraphBuilder.endpoints (GraphBuilder.out_edges later)
  = List.map GraphBuilder.endpoints (GraphBuilder.out_edges first).
Proof. apply run_emitted_shape. Qed.

Lemma all_shown_kept_all (layers : option (list string)) :
  GraphBuilder.enabled layers "physics" = true ->
  GraphBuilder.enabled layers "statistical" = true ->
  GraphBuilder.enabled layers "anomaly" = true ->
  List.filter (GraphBuilder.kept (GraphBuilder.present layers GraphBuilder.startup))
    (GraphBuilder.BASE_EDGES GraphBuilder.startup)
  = GraphBuilder.BASE_EDGES GraphBuilder.startup.
Proof.
  intros Hp Hs Ha. unfold GraphBuilder.present, GraphBuilder.shown.
  rewrite Hp, Hs, Ha. vm_compute. reflexivity.
Qed.

Lemma none_shown_kept_none (layers : option (list string)) :
  GraphBuilder.enabled layers "physics" = false ->
  GraphBuilder.enabled layers "statistical" = false ->
  GraphBuilder.enabled layers "anomaly" = false ->
  List.filter (GraphBuilder.kept (GraphBuilder.present layers GraphBuilder.startup))
    (GraphBuilder.BASE_EDGES GraphBuilder.startup)
  = [].
Proof.
  intros Hp Hs Ha. unfold GraphBuilder.present, GraphBuilder.shown.
  rewrite Hp, Hs, Ha. vm_compute. reflexivity.
Qed.

Lemma first_call_endpoints (uniform : nat -> float) (layers : option (list string))
    (g : GraphBuilder.catalog) :
  List.map GraphBuilder.endpoints
    (GraphBuilder.out_edges (fst (GraphBuilder.update_elements uniform layers g)))
  = List.map GraphBuilder.endpoints
      (List.filter (GraphBuilder.kept (GraphBuilder.present layers g))
         (GraphBuilder.BASE_EDGES g)).
Proof.
  destruct (update_elements_edges uniform layers g) as [-> _].
  apply filter_kept_endpoints, vary_endpoints.
Qed.

(** X23.  At any time in the life of the process: with the three optional
    categories among the toggles every edge of the table is emitted, in
    table order; with none of them no edge is emitted, every edge of the
    table having an end in an optional category. *)
Theorem all_or_no_edges (calls : list ((nat -> float) * option (list string)))
    (uniform : nat -> float) (layers : option (list string)) :
  let out := fst (GraphBuilder.update_elements uniform layers
                    (snd (GraphBuilder.run calls GraphBuilder.startup))) in
  let on c := In c (GraphBuilder.toggles layers) in
  (on "physics" /\ on "statistical" /\ on "anomaly" ->
   List.map GraphBuilder.endpoints (GraphBuilder.out_edges out)
   = List.map GraphBuilder.endpoints
       (GraphBuilder.BASE_EDGES GraphBuilder.startup)) /\
  (~ on "physics" /\ ~ on "statistical" /\ ~ on "anomaly" ->
   GraphBuilder.out_edges out = []).
Proof.
  intros out on. subst out on.
  destruct (run_emitted_shape calls uniform uniform layers GraphBuilder.startup)
    as [_ E].
  rewrite (first_call_endpoints uniform layers GraphBuilder.startup) in E.
  split.
  - intros (Hp & Hs & Ha). apply enabled_In in Hp, Hs, Ha.
    rewrite E, (all_shown_kept_all layers Hp Hs Ha). reflexivity.
  - intros (Hp & Hs & Ha). rewrite <- enabled_In in Hp, Hs, Ha.
    apply not_true_is_false in Hp, Hs, Ha.
    rewrite (none_shown_kept_none layers Hp Hs Ha) in E.
    apply List.map_eq_nil in E. exact E.
Qed.

(** X24.  More toggles never take anything away: if every toggle of one
    call is a toggle of another call on the same catalog, every node id and
    every edge, by its ends, emitted by the first is emitted by the
    second. *)
Theorem more_toggles_more_graph (uniform uniform' : nat -> float)
    (layers layers' : option (list string)) (g : GraphBuilder.catalog) :
  (forall c, In c (GraphBuilder.toggles layers) ->
             In c (GraphBuilder.toggles layers')) ->
  let out := fst (GraphBuilder.update_elements uniform layers g) in
  let out' := fst (GraphBuilder.update_elements uniform' layers' g) in
  (forall x, In x (List.map GraphBuilder.id (GraphBuilder.out_nodes out)) ->
             In x (List.map GraphBuilder.id (GraphBuilder.out_nodes out'))) /\
  (forall p, In p (List.map GraphBuilder.endpoints (GraphBuilder.out_edges out)) ->
             In p (List.map GraphBuilder.endpoints (GraphBuilder.out_edges out'))).
Proof.
  intros Hsub out out'. subst out out'.
  assert (Hen : forall c, GraphBuilder.enabled layers c = true ->
                          GraphBuilder.enabled layers' c = true).
  { intros c. rewrite !enabled_In. apply Hsub. }
  assert (Hids : forall x,
            In x (List.map GraphBuilder.id (GraphBuilder.shown layers g)) ->
            In x (List.map GraphBuilder.id (GraphBuilder.shown layers' g))).
  { intros x Hx. apply List.in_map_iff in Hx as (n & <- & Hn).
    apply List.in_map. apply shown_In in Hn. apply shown_In.
    destruct Hn as [H | [H | [[E H] | [[E H] | [E H]]]]]; auto 10. }
  rewrite !update_elements_nodes_ids, !first_call_endpoints.
  split; [exact Hids|].
  intros p Hp. apply List.in_map_iff in Hp as (e & <- & He).
  apply List.filter_In in He as [He K]. apply List.in_map.
  apply List.filter_In. split; [exact He|].
  apply kept_In. apply kept_In in K. destruct K as [Ks Kt].
  split; apply Hids; assumption.
Qed.

Lemma more_toggles_more_graph_witness :
  (forall c, In c (GraphBuilder.toggles (Some ["physics"])) ->
             In c (GraphBuilder.toggles (Some ["anomaly"; "physics"]))) /\
  In ("temperature_anomaly", "failure_risk")
     (List.map GraphBuilder.endpoints
        (GraphBuilder.out_edges
           (fst (GraphBuilder.update_elements (fun _ => 1%float)
                   (Some ["anomaly"; "physics"]) GraphBuilder.startup)))).
Proof.
  assert (H : forall c, In c (GraphBuilder.toggles (Some ["physics"])) ->
                        In c (GraphBuilder.toggles (Some ["anomaly"; "physics"])))
    by (intros c [<- | []]; right; left; reflexivity).
  split; [exact H|].
  apply (more_toggles_more_graph (fun _ => 1%float) (fun _ => 1%float)
           (Some ["physics"]) (Some ["anomaly"; "physics"])
           GraphBuilder.startup H).
  vm_compute. tauto.
Defined.
